(** * Arxiv_search: the chunker and the claim extractors of
    [src/check_with_openai.py], embedded in Rocq.

    The three functions of the module are translated one by one:
    [check_text_detailed] (the chunker), [check_with_openai] (chunked
    mode) and [check_doc_with_openai] (whole-document mode).  Python
    integers are [Z], Python [str] is [string], a Python exception is a
    value of [exn] carried by [result], and the two effects of the
    extractors (the call to the completion service and [print]) are
    threaded through a state-and-exception monad. *)

From Stdlib Require Import ZArith Lia List Ascii String DecimalString.
From Stdlib Require Import Floats.SpecFloat Sorted.
From stdpp Require Import base tactics list.

Import ListNotations.
#[local] Set Warnings "-register-all".
Local Open Scope string_scope.
Local Open Scope list_scope.
Local Open Scope Z_scope.

(** ** Exceptions *)

Inductive exn_class :=
| ValueError | IndexError | AttributeError | KeyError
| TypeError | JSONDecodeError | APIError.

(** An exception is its class and the text [str(e)] prints. *)
Record exn := Exn { exn_cls : exn_class; exn_str : string }.

Inductive result (A : Type) :=
| Ok (a : A)
| Raise (e : exn).
Arguments Ok {A} a.
Arguments Raise {A} e.

Definition is_raise {A} (r : result A) : bool :=
  match r with Ok _ => false | Raise _ => true end.

(** ** The Python builtins the module uses *)

Module Py.

(** Characters are the code points below 256. *)
Definition code (c : ascii) : N := N_of_ascii c.

(** [str.isspace] on one code point, the test [str.split()] uses. *)
Definition isspace (c : ascii) : bool :=
  let n := code c in
  ((9 <=? n) && (n <=? 13) || (28 <=? n) && (n <=? 32)
   || (n =? 133) || (n =? 160))%N.

(** [str.lower] on one code point: A-Z and the accented capitals
    192-222 (the multiplication sign 215 apart) move up by 32. *)
Definition lower_char (c : ascii) : ascii :=
  let n := code c in
  if ((65 <=? n) && (n <=? 90)
      || (192 <=? n) && (n <=? 222) && negb (n =? 215))%N
  then ascii_of_N (n + 32) else c.

Fixpoint lower (s : string) : string :=
  match s with
  | EmptyString => EmptyString
  | String c s' => String (lower_char c) (lower s')
  end.

(** [w :: ws] unless the pending word [w] is empty. *)
Definition push_word (w : string) (ws : list string) : list string :=
  match w with
  | EmptyString => ws
  | String _ _ => w :: ws
  end.

(** One right-to-left pass: the run of non-space characters that
    starts the string, and the words after it. *)
Fixpoint scan (s : string) : string * list string :=
  match s with
  | EmptyString => (EmptyString, [])
  | String c s' =>
      let '(w, ws) := scan s' in
      if isspace c then (EmptyString, push_word w ws)
      else (String c w, ws)
  end.

(** [s.split()]: the maximal runs of non-space characters, in order. *)
Definition split (s : string) : list string :=
  let '(w, ws) := scan s in push_word w ws.

(** [sep.join(l)]. *)
Definition join (sep : string) (l : list string) : string :=
  String.concat sep l.

(** [len(l)]. *)
Definition len {A} (l : list A) : Z := Z.of_nat (length l).

(** A slice bound as Python normalises it: a negative bound counts
    from the end, and both are clamped to [0, len]. *)
Definition clamp (n i : Z) : Z :=
  if i <? 0 then Z.max (i + n) 0 else Z.min i n.

(** [l[lo:hi]]. *)
Definition slice {A} (l : list A) (lo hi : Z) : list A :=
  let lo' := clamp (len l) lo in
  let hi' := clamp (len l) hi in
  take (Z.to_nat (hi' - lo')) (drop (Z.to_nat lo') l).

(** The number of items of [range(lo, hi, step)], [step] not zero. *)
Definition range_len (lo hi step : Z) : nat :=
  if 0 <? step then
    if lo <? hi then Z.to_nat ((hi - lo - 1) / step + 1) else O
  else
    if hi <? lo then Z.to_nat ((lo - hi - 1) / (- step) + 1) else O.

(** [range(lo, hi, step)]: item [i] is [lo + i * step]; a zero step
    raises [ValueError]. *)
Definition range (lo hi step : Z) : result (list Z) :=
  if step =? 0 then
    Raise (Exn ValueError "range() arg 3 must not be zero")
  else
    Ok (map (fun i : nat => lo + Z.of_nat i * step)
            (seq 0 (range_len lo hi step))).

(** [str(n)] for an integer. *)
Definition str_of_int (n : Z) : string :=
  NilZero.string_of_int (Z.to_int n).

End Py.

(** ** The chunker *)

(** A chunk: the index of its first word, and its text. *)
Definition chunk : Type := Z * string.

(** [check_text_detailed(fp, max_tokens)], on the text that
    [fp.read_text(encoding='utf-8')] returns. *)
Definition check_text_detailed (text : string) (max_tokens : Z)
  : result (list chunk) :=
  let doc := Py.lower text in
  let words := Py.split doc in
  let chunk_size := max_tokens / 4 in
  match Py.range 0 (Py.len words) chunk_size with
  | Raise e => Raise e
  | Ok idxs =>
      Ok (fold_left
            (fun matching_chunks start_idx =>
               let chunk :=
                 Py.join " " (Py.slice words start_idx (start_idx + chunk_size)) in
               matching_chunks ++ [(start_idx, chunk)])
            idxs [])
  end.

(** ** JSON values *)

(** What [json.loads] returns; [JNull] is Python's [None].  An object
    is the list of its members, each key once. *)
Inductive json :=
| JNull
| JBool (b : bool)
| JInt (n : Z)
| JFloat (f : spec_float)
| JStr (s : string)
| JList (l : list json)
| JDict (d : list (string * json)).

(** [bool(v)], the test of an [if]. *)
Definition truthy (v : json) : bool :=
  match v with
  | JNull => false
  | JBool b => b
  | JInt n => negb (n =? 0)
  | JFloat (S754_zero _) => false
  | JFloat _ => true
  | JStr EmptyString => false
  | JStr _ => true
  | JList [] => false
  | JList _ => true
  | JDict [] => false
  | JDict _ => true
  end.

Definition type_name (v : json) : string :=
  match v with
  | JNull => "NoneType"
  | JBool _ => "bool"
  | JInt _ => "int"
  | JFloat _ => "float"
  | JStr _ => "str"
  | JList _ => "list"
  | JDict _ => "dict"
  end.

Fixpoint lookup_key (key : string) (d : list (string * json)) : option json :=
  match d with
  | [] => None
  | (k, v) :: d' => if String.eqb k key then Some v else lookup_key key d'
  end.

(** [v.get(key, default)]: only a dict has the method. *)
Definition get (v : json) (key : string) (default : json) : result json :=
  match v with
  | JDict d =>
      Ok (match lookup_key key d with Some x => x | None => default end)
  | _ =>
      Raise (Exn AttributeError
               (String.append "'" (String.append (type_name v)
                  "' object has no attribute 'get'")))
  end.

(** [v[key]] for a string key. *)
Definition getitem (v : json) (key : string) : result json :=
  match v with
  | JDict d =>
      match lookup_key key d with
      | Some x => Ok x
      | None => Raise (Exn KeyError (String.append "'" (String.append key "'")))
      end
  | _ => Raise (Exn TypeError "bad subscript")
  end.

(** ** The completion service *)

Record Client := OpenAI { api_key : string }.

Record Request := {
  req_model : string;
  req_prompt : string;
  req_max_tokens : Z
}.

Record Choice := { text : string }.
Record Response := { choices : list Choice }.

(** [choices[0]]. *)
Definition first_choice (l : list Choice) : result Choice :=
  match l with
  | c :: _ => Ok c
  | [] => Raise (Exn IndexError "list index out of range")
  end.

(** The line break of the two-line separator. *)
Definition nl : string := String "010" EmptyString.

(** ** Effects: the service's state and what was printed *)

Record World (S : Type) := MkWorld {
  service : S;
  stdout : list string
}.
Arguments MkWorld {S} _ _.
Arguments service {S} _.
Arguments stdout {S} _.

Definition M (S A : Type) : Type := World S -> result A * World S.

Definition ret {S A} (a : A) : M S A := fun w => (Ok a, w).

Definition bind {S A B} (m : M S A) (k : A -> M S B) : M S B :=
  fun w =>
    match m w with
    | (Ok a, w') => k a w'
    | (Raise e, w') => (Raise e, w')
    end.

Definition lift {S A} (r : result A) : M S A := fun w => (r, w).

(** [try: m  except Exception as e: h e]. *)
Definition try_except {S A} (m : M S A) (h : exn -> M S A) : M S A :=
  fun w =>
    match m w with
    | (Ok a, w') => (Ok a, w')
    | (Raise e, w') => h e w'
    end.

(** [print(line)]. *)
Definition print {S} (line : string) : M S unit :=
  fun w => (Ok tt, MkWorld (service w) (stdout w ++ [line])).

(** [for x in l: acc = body x acc]. *)
Fixpoint for_each {S A B} (l : list A) (body : A -> B -> M S B) (acc : B)
  : M S B :=
  match l with
  | [] => ret acc
  | x :: l' => bind (body x acc) (for_each l' body)
  end.

Notation "x <- m ;; k" := (bind m (fun x => k))
  (at level 100, m at next level, right associativity).
Notation "m ;;; k" := (bind m (fun _ => k))
  (at level 100, right associativity).

(** A record of the chunked mode: start index, chunk text, claims. *)
Definition record : Type := Z * string * json.

Section Extractor.

(** The state of the remote service, the call
    [client.Completion.create(model=.., prompt=.., max_tokens=..)] and
    [json.loads] are the environment of the module. *)
Context {S : Type}.
Variable Completion_create :
  Client -> Request -> S -> result Response * S.
Variable json_loads : string -> result json.

Definition create (client : Client) (rq : Request) : M S Response :=
  fun w =>
    let '(r, s') := Completion_create client rq (service w) in
    (r, MkWorld s' (stdout w)).

(** The request of one chunk. *)
Definition chunk_request (model system_prompt chunk : string) : Request :=
  {| req_model := model;
     req_prompt :=
       String.append system_prompt (String.append nl (String.append nl chunk));
     req_max_tokens := 150 |}.

(** The body of the [try] in the loop of [check_with_openai]. *)
Definition try_chunk (client : Client) (model system_prompt : string)
    (c : chunk) (relevant_documents : list record) : M S (list record) :=
  let '(start_index, chunk) := c in
  response <- create client (chunk_request model system_prompt chunk) ;;
  choice <- lift (first_choice (choices response)) ;;
  as_json <- lift (json_loads (text choice)) ;;
  claims <- lift (get as_json "claims" JNull) ;;
  if truthy claims then
    v <- lift (getitem as_json "claims") ;;
    ret (relevant_documents ++ [(start_index, chunk, v)])
  else ret relevant_documents.

Definition failed_on_chunk (start_index : Z) (e : exn) : string :=
  String.append "Failed on chunk starting at "
    (String.append (Py.str_of_int start_index)
       (String.append " with error: " (exn_str e))).

(** One iteration of the loop: the [try] and its handler. *)
Definition process_chunk (client : Client) (model system_prompt : string)
    (c : chunk) (relevant_documents : list record) : M S (list record) :=
  try_except
    (try_chunk client model system_prompt c relevant_documents)
    (fun e => print (failed_on_chunk (fst c) e) ;;; ret relevant_documents).

Definition check_with_openai (chunks : list chunk)
    (model system_prompt openai_api_key : string) : M S (list record) :=
  let client := OpenAI openai_api_key in
  for_each chunks (process_chunk client model system_prompt) [].

(** The request of a whole document. *)
Definition doc_request (model system_prompt doc : string) : Request :=
  {| req_model := model;
     req_prompt :=
       String.append system_prompt (String.append nl (String.append nl doc));
     req_max_tokens := 300 |}.

Definition failed_with (e : exn) : string :=
  String.append "Failed with error: " (exn_str e).

(** [check_doc_with_openai]; the value returned is a Python value,
    [JNull] being [None]. *)
Definition check_doc_with_openai (doc model system_prompt openai_api_key : string)
  : M S json :=
  let client := OpenAI openai_api_key in
  try_except
    (response <- create client (doc_request model system_prompt doc) ;;
     choice <- lift (first_choice (choices response)) ;;
     as_json <- lift (json_loads (text choice)) ;;
     lift (get as_json "claims" (JList [])))
    (fun e => print (failed_with e) ;;; ret JNull).

End Extractor.

(** ** What one chunk's reply amounts to *)

Section Replies.

Context {S : Type}.
Variable Completion_create :
  Client -> Request -> S -> result Response * S.
Variable json_loads : string -> result json.
Variables model system_prompt openai_api_key : string.

(** The call made for chunk [c] in service state [s]. *)
Definition chunk_call (c : chunk) (s : S) : result Response * S :=
  Completion_create (OpenAI openai_api_key)
    (chunk_request model system_prompt (snd c)) s.

(** The call returns, its first choice parses as JSON to an object, and
    the object's [claims] member is [v]; [s'] is the service afterwards. *)
Definition reply_claims (c : chunk) (s : S) (v : json) (s' : S) : Prop :=
  exists response choice rest d,
    chunk_call c s = (Ok response, s')
    /\ choices response = choice :: rest
    /\ json_loads (text choice) = Ok (JDict d)
    /\ lookup_key "claims" d = Some v.

(** The reply has a [claims] member that is not empty. *)
Definition yields_claims (c : chunk) (s : S) (v : json) (s' : S) : Prop :=
  reply_claims c s v s' /\ truthy v = true.

(** The reply is an object without [claims], or with an empty one. *)
Definition yields_nothing (c : chunk) (s : S) (s' : S) : Prop :=
  exists response choice rest d,
    chunk_call c s = (Ok response, s')
    /\ choices response = choice :: rest
    /\ json_loads (text choice) = Ok (JDict d)
    /\ match lookup_key "claims" d with
       | Some v => truthy v = false
       | None => True
       end.

(** The ways the [try] block of a chunk raises. *)
Inductive chunk_raises (c : chunk) (s : S) : exn -> S -> Prop :=
| raises_call e s' :
    chunk_call c s = (Raise e, s') ->
    chunk_raises c s e s'
| raises_no_choice response s' :
    chunk_call c s = (Ok response, s') ->
    choices response = [] ->
    chunk_raises c s (Exn IndexError "list index out of range") s'
| raises_parse response s' choice rest e :
    chunk_call c s = (Ok response, s') ->
    choices response = choice :: rest ->
    json_loads (text choice) = Raise e ->
    chunk_raises c s e s'
| raises_not_object response s' choice rest v e :
    chunk_call c s = (Ok response, s') ->
    choices response = choice :: rest ->
    json_loads (text choice) = Ok v ->
    get v "claims" JNull = Raise e ->
    chunk_raises c s e s'.

(** The run of the chunked mode as the specification tells it: from
    service state [s] the chunks give the records [out], leave the
    service in [s'] and print [log]. *)
Inductive extracts : S -> list chunk -> list record -> S -> list string -> Prop :=
| extracts_nil s :
    extracts s [] [] s []
| extracts_keep s c v s1 chunks out s' log :
    yields_claims c s v s1 ->
    extracts s1 chunks out s' log ->
    extracts s (c :: chunks) ((fst c, snd c, v) :: out) s' log
| extracts_drop s c s1 chunks out s' log :
    yields_nothing c s s1 ->
    extracts s1 chunks out s' log ->
    extracts s (c :: chunks) out s' log
| extracts_fail s c e s1 chunks out s' log :
    chunk_raises c s e s1 ->
    extracts s1 chunks out s' log ->
    extracts s (c :: chunks) out s' (failed_on_chunk (fst c) e :: log).

(** The call made for a whole document in service state [s]. *)
Definition doc_call (doc : string) (s : S) : result Response * S :=
  Completion_create (OpenAI openai_api_key)
    (doc_request model system_prompt doc) s.

(** The ways the [try] block of the whole-document mode raises: the
    call, a reply without choices, the parsing, a parsed value that is
    not an object. *)
Inductive doc_raises (doc : string) (s : S) : exn -> S -> Prop :=
| doc_raises_call e s' :
    doc_call doc s = (Raise e, s') ->
    doc_raises doc s e s'
| doc_raises_no_choice response s' :
    doc_call doc s = (Ok response, s') ->
    choices response = [] ->
    doc_raises doc s (Exn IndexError "list index out of range") s'
| doc_raises_parse response s' choice rest e :
    doc_call doc s = (Ok response, s') ->
    choices response = choice :: rest ->
    json_loads (text choice) = Raise e ->
    doc_raises doc s e s'
| doc_raises_not_object response s' choice rest v e :
    doc_call doc s = (Ok response, s') ->
    choices response = choice :: rest ->
    json_loads (text choice) = Ok v ->
    get v "claims" (JList []) = Raise e ->
    doc_raises doc s e s'.

(** The call returns and its first choice parses to the object [d]. *)
Definition doc_parses (doc : string) (s : S) (d : list (string * json)) (s' : S)
  : Prop :=
  exists response choice rest,
    doc_call doc s = (Ok response, s')
    /\ choices response = choice :: rest
    /\ json_loads (text choice) = Ok (JDict d).

End Replies.

(** ** A small service for examples *)

(** The prompt of a chunk under the empty instruction. *)
Definition demo_prompt (chunk : string) : string :=
  String.append nl (String.append nl chunk).

(** It counts its calls, is down for the chunk [down], and otherwise
    answers with the prompt itself. *)
Definition demo_create (_ : Client) (rq : Request) (calls : nat)
  : result Response * nat :=
  if String.eqb (req_prompt rq) (demo_prompt "down") then
    (Raise (Exn APIError "service unavailable"), Datatypes.S calls)
  else
    (Ok {| choices := [ {| text := req_prompt rq |} ] |}, Datatypes.S calls).

(** A parser that knows three replies. *)
Definition demo_loads (t : string) : result json :=
  if String.eqb t (demo_prompt "claims") then
    Ok (JDict [("claims", JList [JStr "a claim"])])
  else if String.eqb t (demo_prompt "empty") then
    Ok (JDict [("claims", JList [])])
  else if String.eqb t (demo_prompt "other") then
    Ok (JDict [("note", JInt 1)])
  else Raise (Exn JSONDecodeError "Expecting value: line 1 column 1 (char 0)").

Definition demo_world : World nat := MkWorld O [].

(** The same answers from a service without state. *)
Definition still_create (client : Client) (rq : Request) (s : unit)
  : result Response * unit :=
  (fst (demo_create client rq O), s).

(** ** Words *)

(** A string without white space. *)
Fixpoint no_space (s : string) : bool :=
  match s with
  | EmptyString => true
  | String c s' => negb (Py.isspace c) && no_space s'
  end.

(** A word: not empty, no white space. *)
Definition is_word (s : string) : bool :=
  match s with
  | EmptyString => false
  | String _ _ => no_space s
  end.

(** A string of white space only. *)
Fixpoint all_space (s : string) : bool :=
  match s with
  | EmptyString => true
  | String c s' => Py.isspace c && all_space s'
  end.

(** ** A service that keeps the requests it receives *)

(** [recording create] answers as [create] does and appends every
    request to a journal kept beside the state of the service. *)
Definition recording {S : Type}
    (Completion_create : Client -> Request -> S -> result Response * S)
    (client : Client) (rq : Request) (st : S * list Request)
  : result Response * (S * list Request) :=
  let '(r, s') := Completion_create client rq (fst st) in
  (r, (s', snd st ++ [rq])).

(** * Facts about the builtins *)

Section Join.

Variable sep : string.

Lemma join_cons (x : string) (l : list string) :
  l <> [] -> Py.join sep (x :: l) = String.append x (String.append sep (Py.join sep l)).
Proof. destruct l; [congruence | reflexivity]. Qed.

Lemma append_assoc (a b c : string) :
  String.append (String.append a b) c = String.append a (String.append b c).
Proof. induction a as [|ch a IH]; simpl; [reflexivity | now rewrite IH]. Qed.

Lemma join_app (a b : list string) :
  a <> [] -> b <> [] ->
  Py.join sep (a ++ b)
  = String.append (Py.join sep a) (String.append sep (Py.join sep b)).
Proof.
  intros Ha Hb. induction a as [|x a IH]; [congruence|].
  destruct a as [|y a].
  - simpl app. now rewrite join_cons.
  - change ((x :: y :: a) ++ b) with (x :: ((y :: a) ++ b)).
    rewrite !join_cons by (try discriminate; now destruct b).
    rewrite IH by discriminate. now rewrite !append_assoc.
Qed.

(** Joining the joins of non-empty pieces joins all their items. *)
Lemma join_pieces (pieces : list (list string)) :
  Forall (fun p => p <> []) pieces ->
  Py.join sep (map (Py.join sep) pieces) = Py.join sep (concat pieces).
Proof.
  induction 1 as [|p ps Hp Hps IH]; [reflexivity|].
  destruct ps as [|q ps].
  - simpl. now rewrite app_nil_r.
  - change (map (Py.join sep) (p :: q :: ps))
      with (Py.join sep p :: map (Py.join sep) (q :: ps)).
    rewrite join_cons by discriminate. rewrite IH.
    change (concat (p :: q :: ps)) with (p ++ concat (q :: ps)).
    rewrite join_app; [reflexivity | assumption |].
    inversion Hps; subst. simpl. destruct q; [congruence | discriminate].
Qed.

End Join.

Section Split.

Lemma append_empty_r (s : string) : String.append s EmptyString = s.
Proof. induction s as [|c s IH]; simpl; [reflexivity | now rewrite IH]. Qed.

Lemma push_word_words (w : string) (ws : list string) :
  no_space w = true -> Forall (fun x => is_word x = true) ws ->
  Forall (fun x => is_word x = true) (Py.push_word w ws).
Proof.
  intros Hw Hws. destruct w; simpl; [assumption|].
  constructor; assumption.
Qed.

Lemma scan_words (s : string) :
  no_space (fst (Py.scan s)) = true
  /\ Forall (fun x => is_word x = true) (snd (Py.scan s)).
Proof.
  induction s as [|c s [IHw IHws]]; simpl; [now split|].
  destruct (Py.scan s) as [w ws]; simpl in *.
  destruct (Py.isspace c) eqn:Hc; simpl.
  - split; [reflexivity | now apply push_word_words].
  - rewrite Hc. simpl. now split.
Qed.

(** [split] returns words. *)
Lemma split_words (s : string) :
  Forall (fun x => is_word x = true) (Py.split s).
Proof.
  unfold Py.split. destruct (scan_words s) as [Hw Hws].
  destruct (Py.scan s) as [w ws]. now apply push_word_words.
Qed.

Lemma scan_no_space (w s : string) :
  no_space w = true ->
  Py.scan (String.append w s)
  = (String.append w (fst (Py.scan s)), snd (Py.scan s)).
Proof.
  induction w as [|c w IH]; simpl; intros Hw.
  - now destruct (Py.scan s).
  - apply andb_prop in Hw as [Hc Hw]. rewrite (IH Hw).
    apply negb_true_iff in Hc. now rewrite Hc.
Qed.

Lemma split_word_space (w s : string) :
  is_word w = true ->
  Py.split (String.append w (String.append " " s)) = w :: Py.split s.
Proof.
  intros Hw. unfold Py.split.
  rewrite scan_no_space by (destruct w; [discriminate | exact Hw]).
  change (Py.scan (String.append " " s))
    with (let '(u, us) := Py.scan s in (EmptyString, Py.push_word u us)).
  destruct (Py.scan s) as [u us]. simpl.
  destruct w; [discriminate|]. simpl.
  now rewrite append_empty_r.
Qed.

(** Splitting the space-join of words gives the words back. *)
Lemma split_join (ws : list string) :
  Forall (fun x => is_word x = true) ws ->
  Py.split (Py.join " " ws) = ws.
Proof.
  induction 1 as [|w ws Hw Hws IH]; [reflexivity|].
  destruct ws as [|v ws].
  - simpl. unfold Py.split.
    rewrite <- (append_empty_r w) at 1.
    rewrite scan_no_space by (destruct w; [discriminate | exact Hw]).
    simpl. rewrite append_empty_r. now destruct w.
  - rewrite join_cons by discriminate.
    rewrite split_word_space by assumption. now rewrite IH.
Qed.

End Split.

Section Windows.

Lemma fold_append {A B} (f : A -> B) (l : list A) (acc : list B) :
  fold_left (fun acc x => acc ++ [f x]) l acc = acc ++ map f l.
Proof.
  revert acc. induction l as [|x l IH]; intros acc; simpl.
  - now rewrite app_nil_r.
  - rewrite IH. now rewrite <- app_assoc.
Qed.

(** A slice of [size] items that starts inside or after the list. *)
Lemma slice_window {A} (l : list A) (lo size : Z) :
  0 <= lo -> 0 < size ->
  Py.slice l lo (lo + size) = take (Z.to_nat size) (drop (Z.to_nat lo) l).
Proof.
  intros Hlo Hsize. unfold Py.slice, Py.clamp, Py.len.
  destruct (Z.ltb_spec lo 0); [lia|].
  destruct (Z.ltb_spec (lo + size) 0); [lia|].
  destruct (Z_lt_le_dec lo (Z.of_nat (length l))) as [Hin|Hout].
  - rewrite (Z.min_l lo) by lia.
    destruct (Z_le_gt_dec (lo + size) (Z.of_nat (length l))).
    + rewrite Z.min_l by lia. f_equal. lia.
    + rewrite Z.min_r by lia.
      rewrite !take_ge; [reflexivity | |]; rewrite length_drop; lia.
  - rewrite !(drop_ge l) by lia. now rewrite !take_nil.
Qed.

Variable A : Type.
Variable ws : list A.
Variable size : Z.
Hypothesis size_pos : 0 < size.

(** The window with number [i]. *)
Let window (i : nat) : list A :=
  take (Z.to_nat size) (drop (i * Z.to_nat size) ws).

Let n : nat := Py.range_len 0 (Py.len ws) size.

Lemma range_len_start (i : nat) :
  (i < n)%nat -> Z.of_nat i * size < Py.len ws.
Proof.
  unfold n, Py.range_len, Py.len.
  destruct (Z.ltb_spec 0 size); [|lia].
  destruct (Z.ltb_spec 0 (Z.of_nat (length ws))); [|lia].
  intros Hi. rewrite Z.sub_0_r in Hi.
  pose proof (Z.mul_div_le (Z.of_nat (length ws) - 1) size size_pos).
  assert (0 <= (Z.of_nat (length ws) - 1) / size)
    by (apply Z.div_pos; lia).
  nia.
Qed.

Lemma range_len_cover : Py.len ws <= Z.of_nat n * size.
Proof.
  unfold n, Py.range_len, Py.len.
  destruct (Z.ltb_spec 0 size); [|lia].
  destruct (Z.ltb_spec 0 (Z.of_nat (length ws))); [|lia].
  rewrite Z.sub_0_r.
  pose proof (Z.mul_succ_div_gt (Z.of_nat (length ws) - 1) size size_pos).
  assert (0 <= (Z.of_nat (length ws) - 1) / size)
    by (apply Z.div_pos; lia).
  nia.
Qed.

Lemma to_nat_start (i : nat) :
  Z.to_nat (Z.of_nat i * size) = (i * Z.to_nat size)%nat.
Proof. rewrite Z2Nat.inj_mul by lia. now rewrite Nat2Z.id. Qed.

Lemma window_slice (i : nat) :
  Py.slice ws (Z.of_nat i * size) (Z.of_nat i * size + size) = window i.
Proof.
  unfold window. rewrite slice_window by lia. now rewrite to_nat_start.
Qed.

Lemma window_length (i : nat) :
  Z.of_nat (length (window i))
  = Z.min size (Z.max 0 (Py.len ws - Z.of_nat i * size)).
Proof.
  unfold window, Py.len. rewrite length_take, length_drop.
  rewrite <- to_nat_start. lia.
Qed.

Lemma window_nonempty (i : nat) : (i < n)%nat -> window i <> [].
Proof.
  intros Hi Hnil. apply range_len_start in Hi.
  pose proof (window_length i) as Hlen. rewrite Hnil in Hlen.
  simpl in Hlen. lia.
Qed.

(** The first [k] windows are the first [k * size] items. *)
Lemma windows_concat (k : nat) :
  concat (map window (seq 0 k)) = take (k * Z.to_nat size) ws.
Proof.
  induction k as [|k IH]; [reflexivity|].
  rewrite seq_S, map_app, concat_app, IH. simpl.
  rewrite app_nil_r. unfold window. rewrite take_take_drop.
  f_equal. lia.
Qed.

Lemma windows_cover : concat (map window (seq 0 n)) = ws.
Proof.
  rewrite windows_concat. apply take_ge.
  pose proof range_len_cover as H. unfold Py.len in H.
  rewrite <- to_nat_start. lia.
Qed.

(** A window before the last one is full. *)
Lemma window_full (i : nat) :
  (Datatypes.S i < n)%nat -> Z.of_nat (length (window i)) = size.
Proof.
  intros Hi. apply range_len_start in Hi. rewrite window_length. lia.
Qed.

(** The last window holds the remainder, or is full. *)
Lemma window_last (i : nat) :
  Datatypes.S i = n ->
  Z.of_nat (length (window i))
  = if Py.len ws mod size =? 0 then size else Py.len ws mod size.
Proof.
  intros Hi. rewrite window_length.
  assert (Hlt : (i < n)%nat) by lia.
  apply range_len_start in Hlt.
  pose proof range_len_cover as Hge. rewrite <- Hi in Hge.
  pose proof (Z.div_mod (Py.len ws) size ltac:(lia)) as Hdm.
  pose proof (Z.mod_pos_bound (Py.len ws) size size_pos) as Hb.
  destruct (Z.eqb_spec (Py.len ws mod size) 0) as [Hz|Hnz].
  - assert (Z.of_nat i = Py.len ws / size - 1) by nia. nia.
  - assert (Z.of_nat i = Py.len ws / size) by nia. nia.
Qed.

End Windows.

(** * The chunker *)

Section Chunker.

Variable text : string.
Variable max_tokens : Z.
Hypothesis valid : 4 <= max_tokens.

Let words : list string := Py.split (Py.lower text).
Let chunk_size : Z := max_tokens / 4.

Lemma chunk_size_pos : 0 < chunk_size.
Proof.
  unfold chunk_size.
  pose proof (Z.div_le_mono 4 max_tokens 4 ltac:(lia) valid) as H.
  change (4 / 4) with 1 in H. lia.
Qed.

(** The chunk with number [i]. *)
Let nth_chunk (i : nat) : chunk :=
  (Z.of_nat i * chunk_size,
   Py.join " " (take (Z.to_nat chunk_size) (drop (i * Z.to_nat chunk_size) words))).

(** With a valid budget the chunker returns, and its chunks are the
    windows of [chunk_size] words in order. *)
Lemma check_text_detailed_windows :
  check_text_detailed text max_tokens
  = Ok (map nth_chunk (seq 0 (Py.range_len 0 (Py.len words) chunk_size))).
Proof.
  pose proof chunk_size_pos as Hpos.
  unfold check_text_detailed, Py.range. fold words chunk_size.
  destruct (Z.eqb_spec chunk_size 0) as [Hz|_]; [lia|].
  f_equal.
  rewrite (fold_append
             (fun start_idx =>
                (start_idx,
                 Py.join " " (Py.slice words start_idx (start_idx + chunk_size))))).
  rewrite map_map. apply map_ext. intros i. cbv beta.
  rewrite Z.add_0_l. unfold nth_chunk.
  now rewrite (window_slice _ words chunk_size Hpos).
Qed.

End Chunker.

Lemma nth_error_map_seq {B} (f : nat -> B) (n i : nat) (x : B) :
  nth_error (map f (seq 0 n)) i = Some x -> (i < n)%nat /\ x = f i.
Proof.
  intros H. destruct (Nat.lt_ge_cases i n) as [Hlt|Hge].
  - split; [assumption|].
    rewrite (nth_error_nth' _ (f O)) in H
      by (rewrite length_map, length_seq; exact Hlt).
    injection H as <-. rewrite map_nth. now rewrite seq_nth.
  - assert (nth_error (map f (seq 0 n)) i = None) as Hnone
      by (apply nth_error_None; rewrite length_map, length_seq; exact Hge).
    congruence.
Qed.

Lemma join_word_nonempty (sep w : string) (l : list string) :
  is_word w = true -> Py.join sep (w :: l) <> EmptyString.
Proof.
  intros Hw. destruct w as [|c w]; [discriminate|].
  destruct l; simpl; discriminate.
Qed.

(** C1. For every document text and every max_tokens >= 4 the chunker
    returns, and joining the chunk texts in order with single spaces
    gives exactly the space-join of the white-space-split words of the
    lower-cased document. *)
Theorem chunk_coverage (text : string) (max_tokens : Z) :
  4 <= max_tokens ->
  exists chunks,
    check_text_detailed text max_tokens = Ok chunks
    /\ Py.join " " (map snd chunks) = Py.join " " (Py.split (Py.lower text)).
Proof.
  intros Hvalid. eexists. split; [now apply check_text_detailed_windows|].
  pose proof (chunk_size_pos max_tokens Hvalid) as Hpos.
  rewrite map_map. cbv beta. simpl snd.
  rewrite <- (map_map
                (fun i : nat =>
                   take (Z.to_nat (max_tokens / 4))
                     (drop (i * Z.to_nat (max_tokens / 4)) (Py.split (Py.lower text))))
                (Py.join " ")).
  rewrite join_pieces.
  - now rewrite (windows_cover _ _ _ Hpos).
  - apply List.Forall_forall. intros p Hp.
    apply in_map_iff in Hp as (i & <- & Hi). apply in_seq in Hi.
    apply (window_nonempty _ _ _ Hpos). lia.
Qed.

Lemma chunk_coverage_witness :
  4 <= 8
  /\ exists chunks,
       check_text_detailed "Hello  World foo BAR baz" 8 = Ok chunks
       /\ Py.join " " (map snd chunks)
          = Py.join " " (Py.split (Py.lower "Hello  World foo BAR baz")).
Proof.
  split; [lia | apply (chunk_coverage "Hello  World foo BAR baz" 8); lia].
Defined.

(** C6. For every document and every max_tokens >= 4, every chunk but
    the last holds exactly max_tokens // 4 words, and the last holds
    len(words) % (max_tokens // 4) words, or max_tokens // 4 when that
    remainder is zero. *)
Theorem chunk_sizing (text : string) (max_tokens : Z) :
  4 <= max_tokens ->
  exists chunks,
    check_text_detailed text max_tokens = Ok chunks
    /\ forall (i : nat) (c : chunk),
         nth_error chunks i = Some c ->
         let words := Py.split (Py.lower text) in
         let chunk_size := max_tokens / 4 in
         ((Datatypes.S i < length chunks)%nat ->
          Py.len (Py.split (snd c)) = chunk_size)
         /\ (Datatypes.S i = length chunks ->
             Py.len (Py.split (snd c))
             = if Py.len words mod chunk_size =? 0 then chunk_size
               else Py.len words mod chunk_size).
Proof.
  intros Hvalid. eexists. split; [now apply check_text_detailed_windows|].
  pose proof (chunk_size_pos max_tokens Hvalid) as Hpos.
  intros i c Hc words chunk_size.
  rewrite length_map, length_seq.
  apply nth_error_map_seq in Hc as [Hi ->]. simpl snd.
  rewrite split_join
    by (apply Forall_take, Forall_drop, split_words).
  unfold Py.len at 1 3. split; intros Hlast.
  - now apply (window_full _ _ _ Hpos).
  - now apply (window_last _ _ _ Hpos).
Qed.

Lemma chunk_sizing_witness :
  4 <= 8
  /\ exists chunks,
       check_text_detailed "Hello  World foo BAR baz" 8 = Ok chunks
       /\ forall (i : nat) (c : chunk),
            nth_error chunks i = Some c ->
            let words := Py.split (Py.lower "Hello  World foo BAR baz") in
            let chunk_size := 8 / 4 in
            ((Datatypes.S i < length chunks)%nat ->
             Py.len (Py.split (snd c)) = chunk_size)
            /\ (Datatypes.S i = length chunks ->
                Py.len (Py.split (snd c))
                = if Py.len words mod chunk_size =? 0 then chunk_size
                  else Py.len words mod chunk_size).
Proof.
  split; [lia | apply (chunk_sizing "Hello  World foo BAR baz" 8); lia].
Defined.

(** C7. For every document and every max_tokens >= 4, the start index
    recorded in chunk number i (from 0) is i * (max_tokens // 4). *)
Theorem chunk_offset (text : string) (max_tokens : Z) :
  4 <= max_tokens ->
  exists chunks,
    check_text_detailed text max_tokens = Ok chunks
    /\ forall (i : nat) (c : chunk),
         nth_error chunks i = Some c ->
         fst c = Z.of_nat i * (max_tokens / 4).
Proof.
  intros Hvalid. eexists. split; [now apply check_text_detailed_windows|].
  intros i c Hc. now apply nth_error_map_seq in Hc as [_ ->].
Qed.

Lemma chunk_offset_witness :
  4 <= 8
  /\ exists chunks,
       check_text_detailed "Hello  World foo BAR baz" 8 = Ok chunks
       /\ forall (i : nat) (c : chunk),
            nth_error chunks i = Some c -> fst c = Z.of_nat i * (8 / 4).
Proof.
  split; [lia | apply (chunk_offset "Hello  World foo BAR baz" 8); lia].
Defined.

(** C8. For every max_tokens >= 4 the chunker returns, no chunk text is
    empty, and the empty document yields the empty chunk list. *)
Theorem chunk_nonempty (text : string) (max_tokens : Z) :
  4 <= max_tokens ->
  (exists chunks,
     check_text_detailed text max_tokens = Ok chunks
     /\ Forall (fun c : chunk => snd c <> EmptyString) chunks)
  /\ check_text_detailed EmptyString max_tokens = Ok [].
Proof.
  intros Hvalid. split.
  - eexists. split; [now apply check_text_detailed_windows|].
    pose proof (chunk_size_pos max_tokens Hvalid) as Hpos.
    apply List.Forall_forall. intros c Hc.
    apply in_map_iff in Hc as (i & <- & Hi). apply in_seq in Hi.
    simpl snd.
    pose proof (window_nonempty _ (Py.split (Py.lower text)) _ Hpos i
                  ltac:(lia)) as Hne.
    pose proof (split_words (Py.lower text)) as Hws.
    apply (Forall_drop _ (i * Z.to_nat (max_tokens / 4))) in Hws.
    apply (Forall_take _ (Z.to_nat (max_tokens / 4))) in Hws.
    revert Hne Hws. unfold Py.len.
    generalize (take (Z.to_nat (max_tokens / 4))
                  (drop (i * Z.to_nat (max_tokens / 4))
                     (Py.split (Py.lower text)))).
    intros p Hne Hws. destruct Hws as [|w l Hw _]; [congruence|].
    now apply join_word_nonempty.
  - rewrite check_text_detailed_windows by assumption.
    unfold Py.range_len. simpl.
    now destruct (0 <? max_tokens / 4).
Qed.

Lemma chunk_nonempty_witness :
  4 <= 8
  /\ (exists chunks,
        check_text_detailed "Hello  World foo BAR baz" 8 = Ok chunks
        /\ Forall (fun c : chunk => snd c <> EmptyString) chunks)
  /\ check_text_detailed EmptyString 8 = Ok [].
Proof.
  split; [lia | apply (chunk_nonempty "Hello  World foo BAR baz" 8); lia].
Defined.

(** * The chunked mode *)

Section ChunkedMode.

Context {S : Type}.
Variable Completion_create :
  Client -> Request -> S -> result Response * S.
Variable json_loads : string -> result json.
Variables model system_prompt openai_api_key : string.

Local Abbreviation check chunks :=
  (check_with_openai Completion_create json_loads chunks
     model system_prompt openai_api_key).
Local Abbreviation step :=
  (process_chunk Completion_create json_loads (OpenAI openai_api_key)
     model system_prompt).
Local Abbreviation yields :=
  (yields_claims Completion_create json_loads model system_prompt openai_api_key).
Local Abbreviation nothing :=
  (yields_nothing Completion_create json_loads model system_prompt openai_api_key).
Local Abbreviation raises :=
  (chunk_raises Completion_create json_loads model system_prompt openai_api_key).
Local Abbreviation run :=
  (extracts Completion_create json_loads model system_prompt openai_api_key).

Ltac unfold_step :=
  unfold process_chunk, try_except, try_chunk, bind, lift, create, ret, print;
  cbn [service stdout fst snd].

Ltac use_call H :=
  unfold chunk_call in H; cbn [snd] in H; rewrite H.

(** A chunk that yields claims adds its record and prints nothing. *)
Lemma step_yields c s v s' acc o :
  yields c s v s' ->
  step c acc (MkWorld s o)
  = (Ok (acc ++ [(fst c, snd c, v)]), MkWorld s' o).
Proof.
  intros [(response & choice & rest & d & Hcall & Hch & Hj & Hl) Hv].
  destruct c as [i t]. unfold_step. use_call Hcall.
  rewrite Hch. cbn [first_choice]. rewrite Hj. cbn [get getitem].
  rewrite Hl. now rewrite Hv.
Qed.

(** A chunk without claims adds nothing and prints nothing. *)
Lemma step_nothing c s s' acc o :
  nothing c s s' ->
  step c acc (MkWorld s o) = (Ok acc, MkWorld s' o).
Proof.
  intros (response & choice & rest & d & Hcall & Hch & Hj & Hl).
  destruct c as [i t]. unfold_step. use_call Hcall.
  rewrite Hch. cbn [first_choice]. rewrite Hj. cbn [get getitem].
  destruct (lookup_key "claims" d) as [v|]; [now rewrite Hl | reflexivity].
Qed.

(** A chunk whose [try] block raises adds nothing and prints one line. *)
Lemma step_raises c s e s' acc o :
  raises c s e s' ->
  step c acc (MkWorld s o)
  = (Ok acc, MkWorld s' (o ++ [failed_on_chunk (fst c) e])).
Proof.
  intros H. destruct c as [i t].
  destruct H as [e s' Hcall | response s' Hcall Hch
                | response s' choice rest e Hcall Hch Hj
                | response s' choice rest v e Hcall Hch Hj Hg];
    unfold_step; use_call Hcall; try reflexivity;
    rewrite Hch; cbn [first_choice]; try reflexivity;
    rewrite Hj; try reflexivity.
  now rewrite Hg.
Qed.

(** Every chunk is in one of the three cases. *)
Lemma chunk_cases c s :
  (exists v s', yields c s v s')
  \/ (exists s', nothing c s s')
  \/ (exists e s', raises c s e s').
Proof.
  destruct (chunk_call Completion_create model system_prompt openai_api_key c s)
    as [[response|e] s'] eqn:Hcall.
  2:{ right; right. exists e, s'. now apply raises_call. }
  destruct (choices response) as [|choice rest] eqn:Hch.
  { right; right. eexists _, s'. eapply raises_no_choice; eassumption. }
  destruct (json_loads (text choice)) as [v|e] eqn:Hj.
  2:{ right; right. exists e, s'. eapply raises_parse; eassumption. }
  destruct (get v "claims" JNull) as [x|e] eqn:Hg.
  2:{ right; right. exists e, s'. eapply raises_not_object; eassumption. }
  destruct v; try discriminate Hg.
  destruct (lookup_key "claims" d) as [x'|] eqn:Hl.
  - destruct (truthy x') eqn:Ht.
    + left. exists x', s'. split; [|exact Ht].
      now exists response, choice, rest, d.
    + right; left. exists s', response, choice, rest, d.
      rewrite Hl. now repeat split.
  - right; left. exists s', response, choice, rest, d.
    rewrite Hl. now repeat split.
Qed.

(** The relation is total: every run has an outcome. *)
Lemma run_total chunks s : exists out s' log, run s chunks out s' log.
Proof.
  revert s. induction chunks as [|c chunks IH]; intros s.
  - exists [], s, []. constructor.
  - destruct (chunk_cases c s) as [(v & s1 & H) | [(s1 & H) | (e & s1 & H)]];
      destruct (IH s1) as (out & s' & log & Hrun).
    + exists ((fst c, snd c, v) :: out), s', log. now apply extracts_keep with s1.
    + exists out, s', log. now apply extracts_drop with s1.
    + exists out, s', (failed_on_chunk (fst c) e :: log).
      now apply extracts_fail with s1.
Qed.

(** The loop computes what the relation tells: it never raises, adds
    [out] to the accumulator and [log] to what was printed. *)
Lemma run_sound s chunks out s' log :
  run s chunks out s' log ->
  forall acc o,
    for_each chunks step acc (MkWorld s o)
    = (Ok (acc ++ out), MkWorld s' (o ++ log)).
Proof.
  induction 1 as [s | s c v s1 chunks out s' log Hc _ IH
                 | s c s1 chunks out s' log Hc _ IH
                 | s c e s1 chunks out s' log Hc _ IH]; intros acc o.
  - cbn. now rewrite !app_nil_r.
  - cbn [for_each]. unfold bind at 1. rewrite (step_yields _ _ _ _ acc o Hc).
    rewrite IH. now rewrite <- app_assoc.
  - cbn [for_each]. unfold bind at 1. rewrite (step_nothing _ _ _ acc o Hc).
    apply IH.
  - cbn [for_each]. unfold bind at 1. rewrite (step_raises _ _ _ _ acc o Hc).
    rewrite IH. now rewrite <- app_assoc.
Qed.

Lemma run_check s chunks out s' log o :
  run s chunks out s' log ->
  check chunks (MkWorld s o) = (Ok out, MkWorld s' (o ++ log)).
Proof. intros H. unfold check_with_openai. now rewrite (run_sound _ _ _ _ _ H). Qed.

(** What [check_with_openai] returns is a run of the relation. *)
Lemma check_run chunks w out w' :
  check chunks w = (Ok out, w') ->
  exists log,
    run (service w) chunks out (service w') log
    /\ stdout w' = stdout w ++ log.
Proof.
  destruct w as [s o].
  destruct (run_total chunks s) as (out0 & s0 & log & Hrun).
  rewrite (run_check _ _ _ _ _ o Hrun). intros [= <- <-].
  now exists log.
Qed.

Lemma run_app s xs out1 s1 log1 ys out2 s2 log2 :
  run s xs out1 s1 log1 ->
  run s1 ys out2 s2 log2 ->
  run s (xs ++ ys) (out1 ++ out2) s2 (log1 ++ log2).
Proof.
  induction 1; intros Hys; cbn [app].
  - exact Hys.
  - eapply extracts_keep; eauto.
  - eapply extracts_drop; eauto.
  - eapply extracts_fail; eauto.
Qed.

(** The three cases of a chunk exclude one another, and the claims of
    a chunk are determined. *)
Lemma yields_not_nothing c s v s1 s2 : yields c s v s1 -> nothing c s s2 -> False.
Proof.
  intros Hy Hn.
  pose proof (step_yields _ _ _ _ [] [] Hy) as E1.
  pose proof (step_nothing _ _ _ [] [] Hn) as E2.
  rewrite E1 in E2. discriminate.
Qed.

Lemma yields_not_raises c s v s1 e s2 : yields c s v s1 -> raises c s e s2 -> False.
Proof.
  intros Hy Hr.
  pose proof (step_yields _ _ _ _ [] [] Hy) as E1.
  pose proof (step_raises _ _ _ _ [] [] Hr) as E2.
  rewrite E1 in E2. discriminate.
Qed.

Lemma yields_functional c s v1 s1 v2 s2 :
  yields c s v1 s1 -> yields c s v2 s2 -> v1 = v2 /\ s1 = s2.
Proof.
  intros H1 H2.
  pose proof (step_yields _ _ _ _ [] [] H1) as E1.
  pose proof (step_yields _ _ _ _ [] [] H2) as E2.
  rewrite E1 in E2. now injection E2.
Qed.

(** The records are those of the chunks, in the order of the chunks. *)
Lemma run_sublist s chunks out s' log :
  run s chunks out s' log -> sublist (map fst out) chunks.
Proof.
  induction 1; cbn [map].
  - constructor.
  - rewrite <- surjective_pairing. now apply sublist_skip.
  - now apply sublist_cons.
  - now apply sublist_cons.
Qed.

(** Every record comes from a chunk that yields its claims. *)
Lemma run_origin s chunks out s' log :
  run s chunks out s' log ->
  forall i t v, In (i, t, v) out ->
  exists pre post out1 s1 log1 s2,
    chunks = pre ++ (i, t) :: post
    /\ run s pre out1 s1 log1
    /\ yields (i, t) s1 v s2.
Proof.
  induction 1 as [s | s c v0 s1 chunks out s' log Hc Hrun IH
                 | s c s1 chunks out s' log Hc Hrun IH
                 | s c e s1 chunks out s' log Hc Hrun IH]; intros i t v Hin.
  - destruct Hin.
  - destruct Hin as [Heq | Hin].
    + injection Heq as Hi Ht Hv. subst v0.
      assert (c = (i, t)) as -> by (destruct c; cbn in *; congruence).
      exists [], chunks, [], s, [], s1. repeat split; try constructor; apply Hc.
    + destruct (IH _ _ _ Hin) as (pre & post & out1 & s2 & log1 & s3 & -> & Hpre & Hy).
      exists (c :: pre), post, ((fst c, snd c, v0) :: out1), s2, log1, s3.
      repeat split; try apply Hy. now apply extracts_keep with s1.
  - destruct (IH _ _ _ Hin) as (pre & post & out1 & s2 & log1 & s3 & -> & Hpre & Hy).
    exists (c :: pre), post, out1, s2, log1, s3.
    repeat split; try apply Hy. now apply extracts_drop with s1.
  - destruct (IH _ _ _ Hin) as (pre & post & out1 & s2 & log1 & s3 & -> & Hpre & Hy).
    exists (c :: pre), post, out1, s2, (failed_on_chunk (fst c) e :: log1), s3.
    repeat split; try apply Hy. now apply extracts_fail with s1.
Qed.

(** C3. When the [try] block of one chunk raises (the call, the parsing
    of its reply, or any step between), the extractor prints a line with
    that chunk's start index and the error and goes on: the output is
    the output for the chunks before followed by the output for the
    chunks after, the failing chunk adds no record, and if the failed
    call left the service as it was the output is that of the list
    without the failing chunk.  With three chunks, the first and third
    yielding claims and the call of the second raising, the output holds
    the records of the first and the third only. *)
Theorem chunk_isolation :
  (forall pre c post w out1 w1 e s2,
      check pre w = (Ok out1, w1) ->
      raises c (service w1) e s2 ->
      exists out2 w3,
        check post (MkWorld s2 (stdout w1 ++ [failed_on_chunk (fst c) e]))
        = (Ok out2, w3)
        /\ check (pre ++ c :: post) w = (Ok (out1 ++ out2), w3)
        /\ In (failed_on_chunk (fst c) e) (stdout w3)
        /\ (s2 = service w1 ->
            fst (check (pre ++ post) w) = Ok (out1 ++ out2)))
  /\ (forall c1 c2 c3 w v1 s1 e s2 v3 s3,
        yields c1 (service w) v1 s1 ->
        chunk_call Completion_create model system_prompt openai_api_key c2 s1
        = (Raise e, s2) ->
        yields c3 s2 v3 s3 ->
        check [c1; c2; c3] w
        = (Ok [(fst c1, snd c1, v1); (fst c3, snd c3, v3)],
           MkWorld s3 (stdout w ++ [failed_on_chunk (fst c2) e]))).
Proof.
  split.
  - intros pre c post [s o] out1 w1 e s2 Hpre Hraises.
    apply check_run in Hpre as (log1 & Hpre & Hstd). cbn [service stdout] in *.
    destruct (run_total post s2) as (out2 & s3 & log2 & Hpost).
    exists out2, (MkWorld s3 ((stdout w1 ++ [failed_on_chunk (fst c) e]) ++ log2)).
    split; [now apply run_check|].
    split; [|split].
    + assert (run s (pre ++ c :: post) (out1 ++ out2) s3
                (log1 ++ failed_on_chunk (fst c) e :: log2)) as Hall
        by (eapply run_app; [exact Hpre | eapply extracts_fail; eassumption]).
      rewrite (run_check _ _ _ _ _ o Hall).
      rewrite Hstd. now rewrite <- !app_assoc.
    + cbn [stdout]. apply in_or_app. left. apply in_or_app. right. now left.
    + intros ->.
      assert (run s (pre ++ post) (out1 ++ out2) s3 (log1 ++ log2)) as Hall
        by (eapply run_app; eassumption).
      now rewrite (run_check _ _ _ _ _ o Hall).
  - intros c1 c2 c3 [s o] v1 s1 e s2 v3 s3 H1 H2 H3. cbn [service stdout] in *.
    rewrite (run_check s [c1; c2; c3]
               [(fst c1, snd c1, v1); (fst c3, snd c3, v3)] s3
               [failed_on_chunk (fst c2) e] o); [reflexivity|].
    eapply extracts_keep; [exact H1|].
    eapply extracts_fail; [apply raises_call; exact H2|].
    eapply extracts_keep; [exact H3|]. constructor.
Qed.

(** C4. For a chunk [c] anywhere in the input, the extractor's output is
    the output for the chunks before, then what [c] adds, then the
    output for the chunks after; [c] adds its record with claims [v]
    exactly when its reply parsed as JSON to an object whose [claims]
    member is [v] and [v] is not empty (Python's [bool(v)], which for a
    list says that it has an item), and adds nothing in every other
    case, the reply with an empty [claims] list among them. *)
Theorem claims_filtering (pre : list chunk) (c : chunk) (post : list chunk)
    (w : World S) :
  exists out1 w1 r w2 out2 w3,
    check pre w = (Ok out1, w1)
    /\ check [c] w1 = (Ok r, w2)
    /\ check post w2 = (Ok out2, w3)
    /\ check (pre ++ c :: post) w = (Ok (out1 ++ r ++ out2), w3)
    /\ (forall v, r = [(fst c, snd c, v)] <-> exists s', yields c (service w1) v s')
    /\ (r = [] <-> ~ exists v s', yields c (service w1) v s')
    /\ (forall response s' choice rest,
          chunk_call Completion_create model system_prompt openai_api_key
            c (service w1) = (Ok response, s') ->
          choices response = choice :: rest ->
          json_loads (text choice) = Ok (JDict [("claims", JList [])]) ->
          r = [])
    /\ (forall l, truthy (JList l) = true <-> l <> []).
Proof.
  destruct w as [s o].
  destruct (run_total pre s) as (out1 & s1 & log1 & Hpre).
  destruct (run_total [c] s1) as (r & s2 & logc & Hc).
  destruct (run_total post s2) as (out2 & s3 & log2 & Hpost).
  exists out1, (MkWorld s1 (o ++ log1)), r, (MkWorld s2 ((o ++ log1) ++ logc)),
    out2, (MkWorld s3 (((o ++ log1) ++ logc) ++ log2)).
  split; [now apply run_check|].
  split; [now apply run_check|].
  split; [now apply run_check|].
  split.
  { assert (run s (pre ++ [c] ++ post) (out1 ++ r ++ out2) s3
              (log1 ++ logc ++ log2)) as Hall
      by (eapply run_app; [exact Hpre | eapply run_app; eassumption]).
    change (pre ++ [c] ++ post) with (pre ++ c :: post) in Hall.
    rewrite (run_check _ _ _ _ _ o Hall).
    now rewrite <- !app_assoc. }
  cbn [service].
  assert (Hr : (exists v s', yields c s1 v s' /\ r = [(fst c, snd c, v)])
               \/ ((~ exists v s', yields c s1 v s') /\ r = [])).
  { inversion Hc as [ | ? ? v ? ? ? ? ? Hy Hnil | ? ? ? ? ? ? ? Hn Hnil
                    | ? ? e ? ? ? ? ? Hx Hnil]; subst;
      inversion Hnil; subst.
    - left. now exists v, s2.
    - right. split; [|reflexivity].
      intros (v & s' & Hy). exact (yields_not_nothing _ _ _ _ _ Hy Hn).
    - right. split; [|reflexivity].
      intros (v & s' & Hy). exact (yields_not_raises _ _ _ _ _ _ Hy Hx). }
  split; [|split; [|split]].
  4:{ intros l. destruct l; cbn; split; congruence. }
  - intros v. destruct Hr as [(v0 & s' & Hy & ->) | [Hno ->]].
    + split.
      * intros [= <-]. now exists s'.
      * intros (s'' & Hy'). now destruct (yields_functional _ _ _ _ _ _ Hy Hy') as [-> _].
    + split; [discriminate|]. intros (s' & Hy). exfalso. apply Hno. now exists v, s'.
  - destruct Hr as [(v0 & s' & Hy & ->) | [Hno ->]].
    + split; [discriminate|]. intros Hno. exfalso. apply Hno. now exists v0, s'.
    + now split.
  - intros response s' choice rest Hcall Hch Hj.
    destruct Hr as [(v0 & s'' & Hy & ->) | [Hno ->]]; [|reflexivity].
    exfalso. apply (yields_not_nothing _ _ _ _ s' Hy).
    now exists response, choice, rest, [("claims", JList [])].
Qed.

(** C9. The records of the output follow the order of their chunks in
    the input: the output, stripped of the claims, is a subsequence of
    the input. *)
Theorem output_order (chunks : list chunk) (w : World S) :
  exists out w',
    check chunks w = (Ok out, w')
    /\ sublist (map fst out) chunks.
Proof.
  destruct w as [s o].
  destruct (run_total chunks s) as (out & s' & log & Hrun).
  exists out, (MkWorld s' (o ++ log)).
  split; [now apply run_check | now apply run_sublist in Hrun].
Qed.

(** C10. Every record of the output carries the start index and the
    text of a chunk of the input, unchanged, and its third component is
    the value of [claims] in that chunk's parsed reply, whatever the
    value is. *)
Theorem record_passthrough (chunks : list chunk) (w : World S) :
  exists out w',
    check chunks w = (Ok out, w')
    /\ forall i t v,
         In (i, t, v) out ->
         exists pre post out1 w1 s2,
           chunks = pre ++ (i, t) :: post
           /\ check pre w = (Ok out1, w1)
           /\ reply_claims Completion_create json_loads
                model system_prompt openai_api_key (i, t) (service w1) v s2.
Proof.
  destruct w as [s o].
  destruct (run_total chunks s) as (out & s' & log & Hrun).
  exists out, (MkWorld s' (o ++ log)).
  split; [now apply run_check|].
  intros i t v Hin.
  destruct (run_origin _ _ _ _ _ Hrun _ _ _ Hin)
    as (pre & post & out1 & s1 & log1 & s2 & -> & Hpre & Hy).
  exists pre, post, out1, (MkWorld s1 (o ++ log1)), s2.
  split; [reflexivity|]. split; [now apply run_check | apply Hy].
Qed.

End ChunkedMode.

(** * The whole-document mode *)

Section WholeDocument.

Context {S : Type}.
Variable Completion_create :
  Client -> Request -> S -> result Response * S.
Variable json_loads : string -> result json.
Variables model system_prompt openai_api_key : string.

Local Abbreviation check_doc doc :=
  (check_doc_with_openai Completion_create json_loads doc
     model system_prompt openai_api_key).
Local Abbreviation parses :=
  (doc_parses Completion_create json_loads model system_prompt openai_api_key).
Local Abbreviation fails :=
  (doc_raises Completion_create json_loads model system_prompt openai_api_key).

Ltac unfold_doc :=
  unfold check_doc_with_openai, try_except, bind, lift, create, ret, print;
  cbn [service stdout].

Lemma doc_success doc w d s' :
  parses doc (service w) d s' ->
  check_doc doc w
  = (Ok (match lookup_key "claims" d with Some v => v | None => JList [] end),
     MkWorld s' (stdout w)).
Proof.
  intros (response & choice & rest & Hcall & Hch & Hj).
  unfold_doc. unfold doc_call in Hcall. rewrite Hcall.
  rewrite Hch. cbn [first_choice]. now rewrite Hj.
Qed.

Lemma doc_failure doc w e s' :
  fails doc (service w) e s' ->
  check_doc doc w = (Ok JNull, MkWorld s' (stdout w ++ [failed_with e])).
Proof.
  intros H.
  destruct H as [e s' Hcall | response s' Hcall Hch
                | response s' choice rest e Hcall Hch Hj
                | response s' choice rest v e Hcall Hch Hj Hg];
    unfold_doc; unfold doc_call in Hcall; rewrite Hcall; try reflexivity;
    rewrite Hch; cbn [first_choice]; try reflexivity;
    rewrite Hj; try reflexivity.
  now rewrite Hg.
Qed.

Lemma doc_cases doc s :
  (exists d s', parses doc s d s') \/ (exists e s', fails doc s e s').
Proof.
  destruct (doc_call Completion_create model system_prompt openai_api_key doc s)
    as [[response|e] s'] eqn:Hcall.
  2:{ right. exists e, s'. now apply doc_raises_call. }
  destruct (choices response) as [|choice rest] eqn:Hch.
  { right. eexists _, s'. eapply doc_raises_no_choice; eassumption. }
  destruct (json_loads (text choice)) as [v|e] eqn:Hj.
  2:{ right. exists e, s'. eapply doc_raises_parse; eassumption. }
  destruct (get v "claims" (JList [])) as [x|e] eqn:Hg.
  2:{ right. exists e, s'. eapply doc_raises_not_object; eassumption. }
  destruct v; try discriminate Hg.
  left. exists d, s'. now exists response, choice, rest.
Qed.

(** A reply whose [claims] member is [null] is a success that returns
    [None] as well; nothing is printed then. *)
Remark doc_null_claims doc w d s' :
  parses doc (service w) d s' ->
  lookup_key "claims" d = Some JNull ->
  check_doc doc w = (Ok JNull, MkWorld s' (stdout w)).
Proof. intros Hp Hl. rewrite (doc_success _ _ _ _ Hp). now rewrite Hl. Qed.

(** C5. The whole-document mode returns, when the call returns and its
    reply parses to an object, the value of [claims], or the empty list
    when the object has no such member; in every other case (the call
    raises, the reply has no choice, is not JSON, or is not an object)
    it prints the error and returns [None]; one of the two cases always
    applies, and [None] is not the empty list. *)
Theorem whole_document_sentinel :
  (forall doc w d s',
      parses doc (service w) d s' ->
      check_doc doc w
      = (Ok (match lookup_key "claims" d with Some v => v | None => JList [] end),
         MkWorld s' (stdout w)))
  /\ (forall doc w e s',
        fails doc (service w) e s' ->
        check_doc doc w = (Ok JNull, MkWorld s' (stdout w ++ [failed_with e])))
  /\ (forall doc s,
        (exists d s', parses doc s d s') \/ (exists e s', fails doc s e s'))
  /\ JNull <> JList [].
Proof.
  split; [exact doc_success|].
  split; [exact doc_failure|].
  split; [exact doc_cases | discriminate].
Qed.

End WholeDocument.

(** * The budget below four *)

(** A negative budget gives a negative step: the range is empty and the
    chunker returns no chunk, without any error. *)
Lemma negative_budget_no_chunk (text : string) (max_tokens : Z) :
  max_tokens < 0 -> check_text_detailed text max_tokens = Ok [].
Proof.
  intros Hneg. unfold check_text_detailed, Py.range.
  assert (max_tokens / 4 < 0) as Hdiv by (apply Z.div_lt_upper_bound; lia).
  destruct (Z.eqb_spec (max_tokens / 4) 0); [lia|].
  unfold Py.range_len.
  destruct (Z.ltb_spec 0 (max_tokens / 4)); [lia|].
  destruct (Z.ltb_spec (Py.len (Py.split (Py.lower text))) 0);
    [unfold Py.len in *; lia | reflexivity].
Qed.

(** The budgets whose window has no word are 0, 1, 2 and 3. *)
Lemma zero_window_budgets (max_tokens : Z) :
  max_tokens / 4 = 0 <-> 0 <= max_tokens < 4.
Proof.
  split; [|apply Z.div_small].
  intros Hz. pose proof (Z.div_mod max_tokens 4 ltac:(lia)) as Hdm.
  pose proof (Z.mod_pos_bound max_tokens 4 ltac:(lia)). lia.
Qed.



(** * The theorems at the example service *)

Lemma demo_yields (i : Z) (calls : nat) :
  yields_claims demo_create demo_loads "" "" "key" (i, "claims") calls
    (JList [JStr "a claim"]) (Datatypes.S calls).
Proof.
  split; [|reflexivity].
  exists {| choices := [ {| text := demo_prompt "claims" |} ] |},
    {| text := demo_prompt "claims" |}, [],
    [("claims", JList [JStr "a claim"])].
  repeat split; reflexivity.
Qed.

Lemma chunk_isolation_witness :
  (exists out2 w3,
      check_with_openai still_create demo_loads [(4, "claims")] "" "" "key"
        (MkWorld tt
           ([] ++ [failed_on_chunk 2 (Exn APIError "service unavailable")]))
      = (Ok out2, w3)
      /\ check_with_openai still_create demo_loads
           ([(0, "claims")] ++ (2, "down") :: [(4, "claims")]) "" "" "key"
           (MkWorld tt [])
         = (Ok ([(0, "claims", JList [JStr "a claim"])] ++ out2), w3)
      /\ In (failed_on_chunk 2 (Exn APIError "service unavailable")) (stdout w3)
      /\ (tt = tt ->
          fst (check_with_openai still_create demo_loads
                 ([(0, "claims")] ++ [(4, "claims")]) "" "" "key" (MkWorld tt []))
          = Ok ([(0, "claims", JList [JStr "a claim"])] ++ out2)))
  /\ check_with_openai demo_create demo_loads
       [(0, "claims"); (2, "down"); (4, "claims")] "" "" "key" demo_world
     = (Ok [(0, "claims", JList [JStr "a claim"]);
            (4, "claims", JList [JStr "a claim"])],
        MkWorld 3%nat
          ["Failed on chunk starting at 2 with error: service unavailable"]).
Proof.
  split.
  - apply (proj1 (chunk_isolation still_create demo_loads "" "" "key")
             [(0, "claims")] (2, "down") [(4, "claims")] (MkWorld tt [])
             [(0, "claims", JList [JStr "a claim"])] (MkWorld tt [])
             (Exn APIError "service unavailable") tt).
    + reflexivity.
    + apply raises_call. reflexivity.
  - apply (proj2 (chunk_isolation demo_create demo_loads "" "" "key")
             (0, "claims") (2, "down") (4, "claims") demo_world
             (JList [JStr "a claim"]) 1%nat
             (Exn APIError "service unavailable") 2%nat
             (JList [JStr "a claim"]) 3%nat).
    + apply demo_yields.
    + reflexivity.
    + apply demo_yields.
Defined.

Lemma whole_document_sentinel_witness :
  check_doc_with_openai demo_create demo_loads "other" "" "" "key" demo_world
  = (Ok (JList []), MkWorld 1%nat [])
  /\ check_doc_with_openai demo_create demo_loads "down" "" "" "key" demo_world
     = (Ok JNull, MkWorld 1%nat ["Failed with error: service unavailable"]).
Proof.
  split.
  - apply (proj1 (whole_document_sentinel demo_create demo_loads "" "" "key")
             "other" demo_world [("note", JInt 1)] 1%nat).
    exists {| choices := [ {| text := demo_prompt "other" |} ] |},
      {| text := demo_prompt "other" |}, [].
    repeat split; reflexivity.
  - apply (proj1 (proj2 (whole_document_sentinel demo_create demo_loads "" "" "key"))
             "down" demo_world (Exn APIError "service unavailable") 1%nat).
    apply doc_raises_call. reflexivity.
Defined.

(** The chunked mode on six chunks: two yield claims, one call fails,
    one reply has an empty list, one has no [claims], one is not JSON. *)
Example check_with_openai_demo :
  check_with_openai demo_create demo_loads
    [(0, "claims"); (2, "down"); (4, "claims"); (6, "empty"); (8, "other");
     (10, "junk")] "" "" "key" demo_world
  = (Ok [(0, "claims", JList [JStr "a claim"]);
         (4, "claims", JList [JStr "a claim"])],
     MkWorld 6%nat
       ["Failed on chunk starting at 2 with error: service unavailable";
        "Failed on chunk starting at 10 with error: Expecting value: line 1 column 1 (char 0)"]).
Proof. reflexivity. Qed.

Example check_text_detailed_demo :
  check_text_detailed "Hello  World foo BAR baz" 8
  = Ok [(0, "hello world"); (2, "foo bar"); (4, "baz")].
Proof. reflexivity. Qed.

(** * More on the chunker *)

Section Lower.

Lemma lower_char_idempotent (c : ascii) :
  Py.lower_char (Py.lower_char c) = Py.lower_char c.
Proof. destruct c as [[] [] [] [] [] [] [] []]; reflexivity. Qed.

Lemma isspace_lower_char (c : ascii) :
  Py.isspace (Py.lower_char c) = Py.isspace c.
Proof. destruct c as [[] [] [] [] [] [] [] []]; reflexivity. Qed.

Lemma lower_idempotent (s : string) : Py.lower (Py.lower s) = Py.lower s.
Proof.
  induction s as [|c s IH]; cbn; [reflexivity|].
  now rewrite lower_char_idempotent, IH.
Qed.

Lemma lower_append (a b : string) :
  Py.lower (String.append a b) = String.append (Py.lower a) (Py.lower b).
Proof. induction a as [|c a IH]; cbn; [reflexivity | now rewrite IH]. Qed.

Lemma lower_join (ws : list string) :
  Py.lower (Py.join " " ws) = Py.join " " (map Py.lower ws).
Proof.
  induction ws as [|w ws IH]; [reflexivity|].
  destruct ws as [|v ws]; [reflexivity|].
  change (map Py.lower (w :: v :: ws))
    with (Py.lower w :: map Py.lower (v :: ws)).
  rewrite (join_cons " " w) by discriminate.
  rewrite (join_cons " " (Py.lower w)) by discriminate.
  rewrite !lower_append, IH. reflexivity.
Qed.

Lemma push_word_lower (w : string) (ws : list string) :
  Py.push_word (Py.lower w) (map Py.lower ws)
  = map Py.lower (Py.push_word w ws).
Proof. now destruct w. Qed.

Lemma scan_lower (s : string) :
  Py.scan (Py.lower s)
  = (Py.lower (fst (Py.scan s)), map Py.lower (snd (Py.scan s))).
Proof.
  induction s as [|c s IH]; cbn; [reflexivity|].
  rewrite IH, isspace_lower_char. destruct (Py.scan s) as [w ws]. cbn.
  destruct (Py.isspace c); [now rewrite push_word_lower | reflexivity].
Qed.

(** Lower-casing moves no word boundary. *)
Lemma split_lower (s : string) :
  Py.split (Py.lower s) = map Py.lower (Py.split s).
Proof.
  unfold Py.split. rewrite scan_lower. destruct (Py.scan s) as [w ws]. cbn.
  apply push_word_lower.
Qed.

Lemma lower_words_fixed (text : string) :
  map Py.lower (Py.split (Py.lower text)) = Py.split (Py.lower text).
Proof. now rewrite <- split_lower, lower_idempotent. Qed.

Lemma scan_all_space (s : string) :
  all_space s = true -> Py.scan s = (EmptyString, []).
Proof.
  induction s as [|c s IH]; cbn; [reflexivity|].
  intros H. apply andb_prop in H as [Hc Hs]. now rewrite (IH Hs), Hc.
Qed.

End Lower.

Lemma map_fixed {A} (f : A -> A) (l : list A) :
  Forall (fun x => f x = x) l -> map f l = l.
Proof. induction 1 as [|x l Hx _ IH]; cbn; [reflexivity | now rewrite Hx, IH]. Qed.

Lemma lower_words (text : string) :
  Forall (fun w => Py.lower w = w) (Py.split (Py.lower text)).
Proof.
  rewrite split_lower. apply List.Forall_forall. intros w Hw.
  apply in_map_iff in Hw as (v & <- & _). apply lower_idempotent.
Qed.

(** The chunker looks at the words of the lower-cased text only. *)
Lemma check_same_words (t1 t2 : string) (max_tokens : Z) :
  Py.split (Py.lower t1) = Py.split (Py.lower t2) ->
  check_text_detailed t1 max_tokens = check_text_detailed t2 max_tokens.
Proof. intros H. unfold check_text_detailed. now rewrite H. Qed.

Lemma zero_step_raises (text : string) (max_tokens : Z) :
  0 <= max_tokens < 4 -> is_raise (check_text_detailed text max_tokens) = true.
Proof.
  intros H. unfold check_text_detailed, Py.range.
  now rewrite (Z.div_small max_tokens 4 H).
Qed.

Lemma range_len_count (n size : Z) :
  0 <= n -> 0 < size ->
  Z.of_nat (Py.range_len 0 n size) = (n + size - 1) / size.
Proof.
  intros Hn Hsize. unfold Py.range_len.
  destruct (Z.ltb_spec 0 size); [|lia].
  destruct (Z.ltb_spec 0 n).
  - rewrite Z.sub_0_r.
    replace (n + size - 1) with (n - 1 + 1 * size) by lia.
    rewrite Z.div_add by lia.
    assert (0 <= (n - 1) / size) by (apply Z.div_pos; lia). lia.
  - replace n with 0 by lia. cbn [Z.add]. rewrite Z.div_small; lia.
Qed.

(** X1. With a budget of at least 4 the chunker gives as many chunks as
    windows of max_tokens // 4 words are needed to cover the words: the
    quotient of the word count by the window size, rounded up. *)
Theorem chunk_count (text : string) (max_tokens : Z) :
  4 <= max_tokens ->
  exists chunks,
    check_text_detailed text max_tokens = Ok chunks
    /\ Py.len chunks
       = (Py.len (Py.split (Py.lower text)) + max_tokens / 4 - 1)
         / (max_tokens / 4).
Proof.
  intros Hvalid. eexists. split; [now apply check_text_detailed_windows|].
  unfold Py.len at 1. rewrite length_map, length_seq.
  apply range_len_count; [unfold Py.len; lia | now apply chunk_size_pos].
Qed.

Lemma chunk_count_witness :
  4 <= 8
  /\ exists chunks,
       check_text_detailed "Hello  World foo BAR baz" 8 = Ok chunks
       /\ Py.len chunks
          = (Py.len (Py.split (Py.lower "Hello  World foo BAR baz")) + 8 / 4 - 1)
            / (8 / 4).
Proof.
  split; [lia | apply (chunk_count "Hello  World foo BAR baz" 8); lia].
Defined.

(** X2. With a negative budget the chunker returns the empty list for
    every document, and raises nothing. *)
Theorem negative_budget_empty (text : string) (max_tokens : Z) :
  max_tokens < 0 -> check_text_detailed text max_tokens = Ok [].
Proof. apply negative_budget_no_chunk. Qed.

Lemma negative_budget_empty_witness :
  -8 < 0 /\ check_text_detailed "Hello  World foo BAR baz" (-8) = Ok [].
Proof.
  split; [lia | apply (negative_budget_empty "Hello  World foo BAR baz" (-8)); lia].
Defined.

(** X3. The chunker does not see the case of the letters: a document
    and its lower-cased form give the same result, for every budget, and
    every chunk text is left unchanged by lower-casing. *)
Theorem chunk_case_insensitive (text : string) (max_tokens : Z) :
  check_text_detailed (Py.lower text) max_tokens
  = check_text_detailed text max_tokens
  /\ forall chunks,
       check_text_detailed text max_tokens = Ok chunks ->
       Forall (fun c : chunk => Py.lower (snd c) = snd c) chunks.
Proof.
  split.
  - apply check_same_words. now rewrite lower_idempotent.
  - intros chunks Hc.
    destruct (Z_lt_le_dec max_tokens 0) as [Hneg|Hnn].
    { rewrite negative_budget_no_chunk in Hc by assumption.
      injection Hc as <-. constructor. }
    destruct (Z_lt_le_dec max_tokens 4) as [Hsmall|Hvalid].
    { pose proof (zero_step_raises text max_tokens ltac:(lia)) as Hr.
      rewrite Hc in Hr. discriminate. }
    rewrite check_text_detailed_windows in Hc by assumption.
    injection Hc as <-. apply List.Forall_forall. intros c Hin.
    apply in_map_iff in Hin as (i & <- & _). cbn [snd].
    rewrite lower_join. f_equal. apply map_fixed.
    apply Forall_take, Forall_drop, lower_words.
Qed.

(** X4. Chunking the chunks again changes nothing: with a budget of at
    least 4, the chunk texts joined by single spaces are chunked into
    the same list of chunks. *)
Theorem rechunk_roundtrip (text : string) (max_tokens : Z) :
  4 <= max_tokens ->
  exists chunks,
    check_text_detailed text max_tokens = Ok chunks
    /\ check_text_detailed (Py.join " " (map snd chunks)) max_tokens
       = Ok chunks.
Proof.
  intros Hvalid. eexists. split; [now apply check_text_detailed_windows|].
  pose proof (chunk_size_pos max_tokens Hvalid) as Hpos.
  rewrite <- (check_text_detailed_windows text max_tokens Hvalid).
  apply check_same_words.
  rewrite map_map. cbn [snd].
  rewrite <- (map_map
                (fun i : nat =>
                   take (Z.to_nat (max_tokens / 4))
                     (drop (i * Z.to_nat (max_tokens / 4)) (Py.split (Py.lower text))))
                (Py.join " ")).
  rewrite join_pieces.
  - rewrite (windows_cover _ _ _ Hpos).
    rewrite lower_join, lower_words_fixed.
    apply split_join, split_words.
  - apply List.Forall_forall. intros p Hp.
    apply in_map_iff in Hp as (i & <- & Hi). apply in_seq in Hi.
    apply (window_nonempty _ _ _ Hpos). lia.
Qed.

Lemma rechunk_roundtrip_witness :
  4 <= 8
  /\ exists chunks,
       check_text_detailed "Hello  World foo BAR baz" 8 = Ok chunks
       /\ check_text_detailed (Py.join " " (map snd chunks)) 8 = Ok chunks.
Proof.
  split; [lia | apply (rechunk_roundtrip "Hello  World foo BAR baz" 8); lia].
Defined.

(** X5. With a budget of at least 4, splitting a chunk's text gives
    back the words of the document from the chunk's start index on,
    [words[start : start + chunk_size]], and the text is their join by
    single spaces: it has no other white space. *)
Theorem chunk_words (text : string) (max_tokens : Z) :
  4 <= max_tokens ->
  exists chunks,
    check_text_detailed text max_tokens = Ok chunks
    /\ forall c : chunk,
         In c chunks ->
         Py.split (snd c)
         = Py.slice (Py.split (Py.lower text)) (fst c) (fst c + max_tokens / 4)
         /\ Py.join " " (Py.split (snd c)) = snd c.
Proof.
  intros Hvalid. eexists. split; [now apply check_text_detailed_windows|].
  pose proof (chunk_size_pos max_tokens Hvalid) as Hpos.
  intros c Hin. apply in_map_iff in Hin as (i & <- & _). cbn [fst snd].
  rewrite (window_slice _ _ _ Hpos).
  rewrite split_join by (apply Forall_take, Forall_drop, split_words).
  now split.
Qed.

Lemma chunk_words_witness :
  4 <= 8
  /\ exists chunks,
       check_text_detailed "Hello  World foo BAR baz" 8 = Ok chunks
       /\ forall c : chunk,
            In c chunks ->
            Py.split (snd c)
            = Py.slice (Py.split (Py.lower "Hello  World foo BAR baz"))
                (fst c) (fst c + 8 / 4)
            /\ Py.join " " (Py.split (snd c)) = snd c.
Proof.
  split; [lia | apply (chunk_words "Hello  World foo BAR baz" 8); lia].
Defined.

(** X6. With a budget of at least 4, every start index is the index of
    a word of the document, and the start indices grow strictly along
    the chunk list, so no two chunks share one. *)
Theorem chunk_starts (text : string) (max_tokens : Z) :
  4 <= max_tokens ->
  exists chunks,
    check_text_detailed text max_tokens = Ok chunks
    /\ (forall c : chunk,
          In c chunks -> 0 <= fst c < Py.len (Py.split (Py.lower text)))
    /\ (forall (i j : nat) (ci cj : chunk),
          (i < j)%nat ->
          nth_error chunks i = Some ci ->
          nth_error chunks j = Some cj ->
          fst ci < fst cj).
Proof.
  intros Hvalid. eexists. split; [now apply check_text_detailed_windows|].
  pose proof (chunk_size_pos max_tokens Hvalid) as Hpos. split.
  - intros c Hin. apply in_map_iff in Hin as (i & <- & Hi).
    apply in_seq in Hi. cbn [fst].
    pose proof (range_len_start _ (Py.split (Py.lower text)) _ Hpos i
                  ltac:(lia)).
    nia.
  - intros i j ci cj Hij Hi Hj.
    apply nth_error_map_seq in Hi as [_ ->].
    apply nth_error_map_seq in Hj as [_ ->]. cbn [fst]. nia.
Qed.

Lemma chunk_starts_witness :
  4 <= 8
  /\ exists chunks,
       check_text_detailed "Hello  World foo BAR baz" 8 = Ok chunks
       /\ (forall c : chunk,
             In c chunks ->
             0 <= fst c < Py.len (Py.split (Py.lower "Hello  World foo BAR baz")))
       /\ (forall (i j : nat) (ci cj : chunk),
             (i < j)%nat ->
             nth_error chunks i = Some ci ->
             nth_error chunks j = Some cj ->
             fst ci < fst cj).
Proof.
  split; [lia | apply (chunk_starts "Hello  World foo BAR baz" 8); lia].
Defined.

(** X7. A document that has a word and fits in one window, its word
    count being at most max_tokens // 4, gives exactly one chunk: start
    index 0 and the whole lower-cased text with its white space
    normalised. *)
Theorem single_chunk (text : string) (max_tokens : Z) :
  0 < Py.len (Py.split (Py.lower text)) <= max_tokens / 4 ->
  check_text_detailed text max_tokens
  = Ok [(0, Py.join " " (Py.split (Py.lower text)))].
Proof.
  intros [Hword Hfit].
  assert (4 <= max_tokens) as Hvalid.
  { destruct (Z_lt_le_dec max_tokens 4) as [Hlt|]; [|assumption].
    assert (max_tokens / 4 <= 0); [|lia].
    destruct (Z_lt_le_dec max_tokens 0).
    - assert (max_tokens / 4 < 0) by (apply Z.div_lt_upper_bound; lia). lia.
    - rewrite Z.div_small; lia. }
  rewrite check_text_detailed_windows by assumption.
  assert (Py.range_len 0 (Py.len (Py.split (Py.lower text))) (max_tokens / 4)
          = 1%nat) as ->.
  { unfold Py.range_len.
    destruct (Z.ltb_spec 0 (max_tokens / 4)); [|lia].
    destruct (Z.ltb_spec 0 (Py.len (Py.split (Py.lower text)))); [|lia].
    rewrite Z.sub_0_r, Z.div_small by lia. reflexivity. }
  cbn [seq map]. rewrite Nat.mul_0_l, drop_0. cbn [Z.of_nat Z.mul].
  rewrite take_ge; [reflexivity|]. unfold Py.len in Hfit. lia.
Qed.

Lemma single_chunk_witness :
  0 < Py.len (Py.split (Py.lower "Hello  World")) <= 12 / 4
  /\ check_text_detailed "Hello  World" 12
     = Ok [(0, Py.join " " (Py.split (Py.lower "Hello  World")))].
Proof.
  split; [vm_compute; split; congruence
         | apply (single_chunk "Hello  World" 12); vm_compute; split; congruence].
Defined.

(** X8. A document made of white space only has no word: with a budget
    of at least 4 the chunker returns the empty list for it. *)
Theorem blank_document_no_chunk (text : string) (max_tokens : Z) :
  4 <= max_tokens ->
  all_space text = true ->
  check_text_detailed text max_tokens = Ok [].
Proof.
  intros Hvalid Hblank.
  assert (Py.split (Py.lower text) = []) as Hnone.
  { rewrite split_lower. unfold Py.split.
    now rewrite (scan_all_space _ Hblank). }
  rewrite check_text_detailed_windows by assumption.
  rewrite Hnone. unfold Py.range_len. simpl.
  now destruct (0 <? max_tokens / 4).
Qed.

Lemma blank_document_no_chunk_witness :
  4 <= 8 /\ all_space "   " = true /\ check_text_detailed "   " 8 = Ok [].
Proof.
  split; [lia|]. split; [reflexivity|].
  apply (blank_document_no_chunk "   " 8); [lia | reflexivity].
Defined.

(** * More on the chunked mode *)

Lemma sublist_In {A} (l1 l2 : list A) (x : A) :
  sublist l1 l2 -> In x l1 -> In x l2.
Proof.
  induction 1 as [|y l1 l2 _ IH|y l1 l2 _ IH]; cbn; intros Hin.
  - exact Hin.
  - destruct Hin as [->|Hin]; [now left | right; now apply IH].
  - right. now apply IH.
Qed.

Lemma sublist_sorted {A} (f : A -> Z) (l1 l2 : list A) :
  sublist l1 l2 ->
  StronglySorted Z.lt (map f l2) -> StronglySorted Z.lt (map f l1).
Proof.
  induction 1 as [|y l1 l2 Hsub IH|y l1 l2 Hsub IH]; cbn; intros Hs.
  - exact Hs.
  - apply StronglySorted_inv in Hs as [Hs Hall]. constructor; [now apply IH|].
    apply List.Forall_forall. intros z Hz.
    apply in_map_iff in Hz as (x & <- & Hx).
    rewrite List.Forall_forall in Hall. apply Hall.
    apply in_map. now apply (sublist_In l1 l2).
  - apply StronglySorted_inv in Hs as [Hs _]. now apply IH.
Qed.

Lemma starts_sorted (size : Z) (a n : nat) :
  0 < size ->
  StronglySorted Z.lt (map (fun i : nat => Z.of_nat i * size) (seq a n)).
Proof.
  intros Hsize. revert a. induction n as [|n IH]; intros a; cbn.
  - constructor.
  - constructor; [apply IH|].
    apply List.Forall_forall. intros z Hz.
    apply in_map_iff in Hz as (i & <- & Hi). apply in_seq in Hi. nia.
Qed.

Section ChunkedModeMore.

Context {S : Type}.
Variable Completion_create :
  Client -> Request -> S -> result Response * S.
Variable json_loads : string -> result json.
Variables model system_prompt openai_api_key : string.

Local Abbreviation check chunks :=
  (check_with_openai Completion_create json_loads chunks
     model system_prompt openai_api_key).
Local Abbreviation call :=
  (chunk_call Completion_create model system_prompt openai_api_key).
Local Abbreviation yields :=
  (yields_claims Completion_create json_loads model system_prompt openai_api_key).
Local Abbreviation nothing :=
  (yields_nothing Completion_create json_loads model system_prompt openai_api_key).
Local Abbreviation raises :=
  (chunk_raises Completion_create json_loads model system_prompt openai_api_key).
Local Abbreviation run :=
  (extracts Completion_create json_loads model system_prompt openai_api_key).

(** X9. Batches compose: running the extractor on a first list of
    chunks and then, from the state it leaves, on a second list gives
    together what one run on the two lists in a row gives: the outputs
    in a row, the same final service state and the same printed lines. *)
Theorem batch_composition (xs ys : list chunk) (w w1 w2 : World S)
    (out1 out2 : list record) :
  check xs w = (Ok out1, w1) ->
  check ys w1 = (Ok out2, w2) ->
  check (xs ++ ys) w = (Ok (out1 ++ out2), w2).
Proof.
  intros H1 H2.
  apply check_run in H1 as (log1 & R1 & E1).
  apply check_run in H2 as (log2 & R2 & E2).
  destruct w as [s o], w1 as [s1 o1], w2 as [s2 o2]. cbn [service stdout] in *.
  subst o1 o2.
  assert (run s (xs ++ ys) (out1 ++ out2) s2 (log1 ++ log2)) as Hall
    by (eapply run_app; eassumption).
  rewrite (run_check _ _ _ _ _ _ _ _ _ _ o Hall).
  now rewrite app_assoc.
Qed.

Lemma run_accounting s chunks out s' log :
  run s chunks out s' log ->
  (length out + length log <= length chunks)%nat
  /\ Forall (fun line => exists c e,
                 In c chunks /\ line = failed_on_chunk (fst c) e) log.
Proof.
  induction 1 as [s | s c v s1 chunks out s' log Hc _ [IHn IHl]
                 | s c s1 chunks out s' log Hc _ [IHn IHl]
                 | s c e s1 chunks out s' log Hc _ [IHn IHl]]; cbn [length].
  - split; [lia | constructor].
  - split; [lia|]. eapply List.Forall_impl; [|exact IHl].
    intros line (c0 & e & Hin & ->). exists c0, e. split; [now right | reflexivity].
  - split; [lia|]. eapply List.Forall_impl; [|exact IHl].
    intros line (c0 & e & Hin & ->). exists c0, e. split; [now right | reflexivity].
  - split; [lia|]. constructor.
    + exists c, e. split; [now left | reflexivity].
    + eapply List.Forall_impl; [|exact IHl].
      intros line (c0 & e0 & Hin & ->). exists c0, e0.
      split; [now right | reflexivity].
Qed.

(** X13. The extractor only adds to what was printed: the lines printed
    before stay in front, every added line is the failure line of a
    chunk of the input, and records and added lines together are never
    more than the chunks. *)
Theorem stdout_accounting (chunks : list chunk) (w : World S) :
  exists out w' log,
    check chunks w = (Ok out, w')
    /\ stdout w' = stdout w ++ log
    /\ (length out + length log <= length chunks)%nat
    /\ Forall (fun line => exists c e,
                   In c chunks /\ line = failed_on_chunk (fst c) e) log.
Proof.
  destruct w as [s o].
  destruct (run_total Completion_create json_loads model system_prompt
              openai_api_key chunks s) as (out & s' & log & Hrun).
  exists out, (MkWorld s' (o ++ log)), log.
  split; [now apply run_check|]. split; [reflexivity|].
  now apply run_accounting in Hrun.
Qed.

Lemma run_all_yield s chunks out s' log :
  run s chunks out s' log ->
  (forall c, In c chunks -> forall s0, exists v s1, yields c s0 v s1) ->
  map fst out = chunks /\ log = [].
Proof.
  induction 1 as [s | s c v s1 chunks out s' log Hc _ IH
                 | s c s1 chunks out s' log Hc _ IH
                 | s c e s1 chunks out s' log Hc _ IH]; intros Hall.
  - now split.
  - destruct IH as [IHo IHl]; [intros c0 Hin; apply Hall; now right|].
    cbn [map fst]. rewrite IHo, <- surjective_pairing. now split.
  - exfalso. destruct (Hall c (or_introl eq_refl) s) as (v & s2 & Hy).
    eapply yields_not_nothing; eassumption.
  - exfalso. destruct (Hall c (or_introl eq_refl) s) as (v & s2 & Hy).
    eapply yields_not_raises; eassumption.
Qed.

(** X14. When every chunk of the input yields claims, whatever the
    state of the service, the output has one record for each chunk, in
    the order of the input, and nothing is printed. *)
Theorem all_chunks_kept (chunks : list chunk) (w : World S) :
  (forall c, In c chunks -> forall s, exists v s', yields c s v s') ->
  exists out w',
    check chunks w = (Ok out, w')
    /\ map fst out = chunks
    /\ stdout w' = stdout w.
Proof.
  intros Hall. destruct w as [s o].
  destruct (run_total Completion_create json_loads model system_prompt
              openai_api_key chunks s) as (out & s' & log & Hrun).
  destruct (run_all_yield _ _ _ _ _ Hrun Hall) as [Hout ->].
  exists out, (MkWorld s' o). split; [|now split].
  rewrite <- (app_nil_r o) at 2. now apply run_check.
Qed.

(** X11. A reply that parses to an object whose [claims] is [null],
    [false], a zero, an empty string, an empty list or an empty object
    is dropped like an empty list of claims: the chunk adds no record
    and, unlike a failure, nothing is printed. *)
Theorem falsy_claims_dropped (c : chunk) (w : World S) response s' choice rest d v :
  call c (service w) = (Ok response, s') ->
  choices response = choice :: rest ->
  json_loads (text choice) = Ok (JDict d) ->
  lookup_key "claims" d = Some v ->
  In v [JNull; JBool false; JInt 0; JFloat (S754_zero false);
        JFloat (S754_zero true); JStr EmptyString; JList []; JDict []] ->
  check [c] w = (Ok [], MkWorld s' (stdout w)).
Proof.
  intros Hcall Hch Hj Hl Hv. destruct w as [s o]. cbn [service stdout] in *.
  assert (truthy v = false) as Hfalse.
  { cbn in Hv.
    repeat (destruct Hv as [<- | Hv]; [reflexivity|]). destruct Hv. }
  assert (nothing c s s') as Hn.
  { exists response, choice, rest, d. rewrite Hl. now repeat split. }
  assert (run s [c] [] s' []) as Hrun
    by (eapply extracts_drop; [exact Hn | constructor]).
  rewrite (run_check _ _ _ _ _ _ _ _ _ _ o Hrun). now rewrite app_nil_r.
Qed.

(** X12. A reply that is valid JSON but not an object (a list, a
    string, a number, [true], [null]) is a failure of the chunk: no
    record, and one printed line that names the start index and the
    missing [get] attribute of the value's type. *)
Theorem non_object_reply_fails (c : chunk) (w : World S) response s' choice rest v :
  call c (service w) = (Ok response, s') ->
  choices response = choice :: rest ->
  json_loads (text choice) = Ok v ->
  (forall d, v <> JDict d) ->
  check [c] w
  = (Ok [],
     MkWorld s'
       (stdout w
        ++ [failed_on_chunk (fst c)
              (Exn AttributeError
                 (String.append "'"
                    (String.append (type_name v)
                       "' object has no attribute 'get'")))])).
Proof.
  intros Hcall Hch Hj Hv. destruct w as [s o]. cbn [service stdout] in *.
  assert (run s [c] [] s'
            [failed_on_chunk (fst c)
               (Exn AttributeError
                  (String.append "'"
                     (String.append (type_name v)
                        "' object has no attribute 'get'")))]) as Hrun.
  { eapply extracts_fail; [|constructor].
    eapply raises_not_object; [exact Hcall | exact Hch | exact Hj |].
    destruct v; try reflexivity. now destruct (Hv d). }
  now rewrite (run_check _ _ _ _ _ _ _ _ _ _ o Hrun).
Qed.

End ChunkedModeMore.

Section Recording.

Context {S : Type}.
Variable Completion_create :
  Client -> Request -> S -> result Response * S.
Variable json_loads : string -> result json.
Variables model system_prompt openai_api_key : string.

Local Abbreviation request_of c := (chunk_request model system_prompt (snd c)).

Lemma call_recording (c : chunk) (s : S) (reqs : list Request) r s' :
  chunk_call Completion_create model system_prompt openai_api_key c s = (r, s') ->
  chunk_call (recording Completion_create) model system_prompt openai_api_key
    c (s, reqs)
  = (r, (s', reqs ++ [request_of c])).
Proof.
  unfold chunk_call, recording. cbn [fst snd]. now intros ->.
Qed.

Lemma run_recording s chunks out s' log :
  extracts Completion_create json_loads model system_prompt openai_api_key
    s chunks out s' log ->
  forall reqs,
    extracts (recording Completion_create) json_loads
      model system_prompt openai_api_key
      (s, reqs) chunks out (s', reqs ++ map (fun c => request_of c) chunks) log.
Proof.
  induction 1 as [s | s c v s1 chunks out s' log Hc _ IH
                 | s c s1 chunks out s' log Hc _ IH
                 | s c e s1 chunks out s' log Hc _ IH]; intros reqs; cbn [map].
  - rewrite app_nil_r. constructor.
  - replace (reqs ++ request_of c :: map (fun c => request_of c) chunks)
      with ((reqs ++ [request_of c]) ++ map (fun c => request_of c) chunks)
      by now rewrite <- app_assoc.
    eapply extracts_keep; [|apply IH].
    destruct Hc as [(response & choice & rest & d & Hcall & Hrest) Hv].
    split; [|exact Hv]. exists response, choice, rest, d.
    split; [now apply call_recording | exact Hrest].
  - replace (reqs ++ request_of c :: map (fun c => request_of c) chunks)
      with ((reqs ++ [request_of c]) ++ map (fun c => request_of c) chunks)
      by now rewrite <- app_assoc.
    eapply extracts_drop; [|apply IH].
    destruct Hc as (response & choice & rest & d & Hcall & Hrest).
    exists response, choice, rest, d.
    split; [now apply call_recording | exact Hrest].
  - replace (reqs ++ request_of c :: map (fun c => request_of c) chunks)
      with ((reqs ++ [request_of c]) ++ map (fun c => request_of c) chunks)
      by now rewrite <- app_assoc.
    assert (chunk_raises (recording Completion_create) json_loads
              model system_prompt openai_api_key c (s, reqs) e
              (s1, reqs ++ [request_of c])) as Hrec.
    { destruct Hc as [e s1 Hcall | response s1 Hcall Hch
                     | response s1 choice rest e Hcall Hch Hj
                     | response s1 choice rest v e Hcall Hch Hj Hg].
      - apply raises_call. now apply call_recording.
      - eapply raises_no_choice; [apply call_recording; exact Hcall | exact Hch].
      - eapply raises_parse; [apply call_recording; exact Hcall | exact Hch | exact Hj].
      - eapply raises_not_object;
          [apply call_recording; exact Hcall | exact Hch | exact Hj | exact Hg]. }
    eapply extracts_fail; [exact Hrec | apply IH].
Qed.

(** X10. The extractor calls the service exactly once for each chunk,
    in the order of the input and whether the chunk fails or not, with
    the request made of the model, the prompt [system_prompt], two line
    breaks and the chunk text, and the ceiling 150: a service that keeps
    a journal of its requests ends with exactly these requests added,
    and output and printed lines are those of the service without the
    journal. *)
Theorem one_request_per_chunk (chunks : list chunk) (s : S)
    (reqs : list Request) (o : list string) :
  exists out s' log,
    check_with_openai Completion_create json_loads chunks
      model system_prompt openai_api_key (MkWorld s o)
    = (Ok out, MkWorld s' (o ++ log))
    /\ check_with_openai (recording Completion_create) json_loads chunks
         model system_prompt openai_api_key (MkWorld (s, reqs) o)
       = (Ok out,
          MkWorld
            (s', reqs
                 ++ map (fun c : chunk =>
                           {| req_model := model;
                              req_prompt :=
                                String.append system_prompt
                                  (String.append nl (String.append nl (snd c)));
                              req_max_tokens := 150 |}) chunks)
            (o ++ log)).
Proof.
  destruct (run_total Completion_create json_loads model system_prompt
              openai_api_key chunks s) as (out & s' & log & Hrun).
  exists out, s', log. split; [now apply run_check|].
  apply run_check. now apply run_recording.
Qed.

End Recording.

(** * The chunker and the chunked mode in a row *)

(** X15. When the chunks of a document, cut with a budget of at least
    4, are given to the extractor, the start indices of the output
    records grow strictly, so a start index names one record at most,
    and no record has an empty text. *)
Theorem pipeline_starts {S : Type}
    (Completion_create : Client -> Request -> S -> result Response * S)
    (json_loads : string -> result json)
    (model system_prompt openai_api_key : string)
    (text : string) (max_tokens : Z) (w : World S) :
  4 <= max_tokens ->
  exists chunks out w',
    check_text_detailed text max_tokens = Ok chunks
    /\ check_with_openai Completion_create json_loads chunks
         model system_prompt openai_api_key w = (Ok out, w')
    /\ StronglySorted Z.lt (map (fun r : record => fst (fst r)) out)
    /\ Forall (fun r : record => snd (fst r) <> EmptyString) out.
Proof.
  intros Hvalid.
  pose proof (chunk_size_pos max_tokens Hvalid) as Hpos.
  eexists. destruct w as [s o].
  destruct (run_total Completion_create json_loads model system_prompt
              openai_api_key
              (map (fun i : nat =>
                      (Z.of_nat i * (max_tokens / 4),
                       Py.join " "
                         (take (Z.to_nat (max_tokens / 4))
                            (drop (i * Z.to_nat (max_tokens / 4))
                               (Py.split (Py.lower text))))))
                 (seq 0 (Py.range_len 0 (Py.len (Py.split (Py.lower text)))
                           (max_tokens / 4)))) s)
    as (out & s' & log & Hrun).
  exists out, (MkWorld s' (o ++ log)).
  split; [now apply check_text_detailed_windows|].
  split; [now apply run_check|].
  apply run_sublist in Hrun. split.
  - replace (map (fun r : record => fst (fst r)) out)
      with (map fst (map fst out)) by apply map_map.
    apply (sublist_sorted fst _ _ Hrun).
    rewrite map_map. cbn [fst]. now apply starts_sorted.
  - apply List.Forall_forall. intros r Hr.
    assert (In (fst r) (map fst out)) as Hin by now apply in_map.
    apply (sublist_In _ _ _ Hrun) in Hin.
    apply in_map_iff in Hin as (i & Hi & Hseq). rewrite <- Hi. cbn [snd].
    apply in_seq in Hseq.
    pose proof (window_nonempty _ (Py.split (Py.lower text)) _ Hpos i
                  ltac:(lia)) as Hne.
    pose proof (split_words (Py.lower text)) as Hws.
    apply (Forall_drop _ (i * Z.to_nat (max_tokens / 4))) in Hws.
    apply (Forall_take _ (Z.to_nat (max_tokens / 4))) in Hws.
    revert Hne Hws. unfold Py.len.
    generalize (take (Z.to_nat (max_tokens / 4))
                  (drop (i * Z.to_nat (max_tokens / 4))
                     (Py.split (Py.lower text)))).
    intros p Hne Hws. destruct Hws as [|x l Hx _]; [congruence|].
    now apply join_word_nonempty.
Qed.

(** * More on the whole-document mode *)

Section WholeDocumentMore.

Context {S : Type}.
Variable Completion_create :
  Client -> Request -> S -> result Response * S.
Variable json_loads : string -> result json.
Variables model system_prompt openai_api_key : string.

Local Abbreviation check_doc doc :=
  (check_doc_with_openai Completion_create json_loads doc
     model system_prompt openai_api_key).
Local Abbreviation call_doc :=
  (doc_call Completion_create model system_prompt openai_api_key).

(** X16. A reply whose [claims] member is [null] makes the
    whole-document mode return [None], the value it returns on a
    failure; only the printed lines tell the two apart, for nothing is
    printed here. *)
Theorem null_claims_returns_none (doc : string) (w : World S)
    response s' choice rest d :
  call_doc doc (service w) = (Ok response, s') ->
  choices response = choice :: rest ->
  json_loads (text choice) = Ok (JDict d) ->
  lookup_key "claims" d = Some JNull ->
  check_doc doc w = (Ok JNull, MkWorld s' (stdout w)).
Proof.
  intros Hcall Hch Hj Hl.
  apply doc_null_claims with d; [|exact Hl].
  now exists response, choice, rest.
Qed.

(** X17. In the whole-document mode a reply that is valid JSON but not
    an object returns [None] and prints the missing [get] attribute of
    the value's type; a [claims] member of any other type than a list
    is returned as it is. *)
Theorem doc_reply_shapes (doc : string) (w : World S) response s' choice rest :
  call_doc doc (service w) = (Ok response, s') ->
  choices response = choice :: rest ->
  (forall v,
      json_loads (text choice) = Ok v ->
      (forall d, v <> JDict d) ->
      check_doc doc w
      = (Ok JNull,
         MkWorld s'
           (stdout w
            ++ [failed_with
                  (Exn AttributeError
                     (String.append "'"
                        (String.append (type_name v)
                           "' object has no attribute 'get'")))])))
  /\ (forall d v,
        json_loads (text choice) = Ok (JDict d) ->
        lookup_key "claims" d = Some v ->
        check_doc doc w = (Ok v, MkWorld s' (stdout w))).
Proof.
  intros Hcall Hch. split.
  - intros v Hj Hv. apply doc_failure.
    eapply doc_raises_not_object; [exact Hcall | exact Hch | exact Hj |].
    destruct v; try reflexivity. now destruct (Hv d).
  - intros d v Hj Hl.
    rewrite (doc_success _ _ _ _ _ doc w d s');
      [now rewrite Hl | now exists response, choice, rest].
Qed.

End WholeDocumentMore.

(** * The further theorems at the example service *)

Lemma batch_composition_witness :
  check_with_openai demo_create demo_loads [(0, "claims")] "" "" "key" demo_world
  = (Ok [(0, "claims", JList [JStr "a claim"])], MkWorld 1%nat [])
  /\ check_with_openai demo_create demo_loads [(2, "down")] "" "" "key"
       (MkWorld 1%nat [])
     = (Ok [],
        MkWorld 2%nat
          ["Failed on chunk starting at 2 with error: service unavailable"])
  /\ check_with_openai demo_create demo_loads
       ([(0, "claims")] ++ [(2, "down")]) "" "" "key" demo_world
     = (Ok ([(0, "claims", JList [JStr "a claim"])] ++ []),
        MkWorld 2%nat
          ["Failed on chunk starting at 2 with error: service unavailable"]).
Proof.
  split; [reflexivity|]. split; [reflexivity|].
  apply (batch_composition demo_create demo_loads "" "" "key"
           [(0, "claims")] [(2, "down")] demo_world (MkWorld 1%nat []));
    reflexivity.
Defined.

Lemma all_chunks_kept_witness :
  (forall c, In c [(0, "claims"); (2, "claims")] ->
   forall s, exists v s',
     yields_claims demo_create demo_loads "" "" "key" c s v s')
  /\ exists out w',
       check_with_openai demo_create demo_loads
         [(0, "claims"); (2, "claims")] "" "" "key" demo_world = (Ok out, w')
       /\ map fst out = [(0, "claims"); (2, "claims")]
       /\ stdout w' = stdout demo_world.
Proof.
  assert (forall c, In c [(0, "claims"); (2, "claims")] ->
          forall s, exists v s',
            yields_claims demo_create demo_loads "" "" "key" c s v s') as Hall.
  { intros c [<- | [<- | []]] s; eexists _, _; apply demo_yields. }
  split; [exact Hall|].
  apply (all_chunks_kept demo_create demo_loads "" "" "key"
           [(0, "claims"); (2, "claims")] demo_world Hall).
Defined.

Lemma falsy_claims_dropped_witness :
  check_with_openai demo_create (fun _ => Ok (JDict [("claims", JInt 0)]))
    [(0, "anything")] "" "" "key" demo_world
  = (Ok [], MkWorld 1%nat []).
Proof.
  apply (falsy_claims_dropped demo_create
           (fun _ => Ok (JDict [("claims", JInt 0)])) "" "" "key"
           (0, "anything") demo_world
           {| choices := [ {| text := demo_prompt "anything" |} ] |} 1%nat
           {| text := demo_prompt "anything" |} []
           [("claims", JInt 0)] (JInt 0));
    try reflexivity.
  cbn. tauto.
Defined.

Lemma non_object_reply_fails_witness :
  check_with_openai demo_create (fun _ => Ok (JList [JStr "a claim"]))
    [(6, "anything")] "" "" "key" demo_world
  = (Ok [],
     MkWorld 1%nat
       ["Failed on chunk starting at 6 with error: 'list' object has no attribute 'get'"]).
Proof.
  apply (non_object_reply_fails demo_create
           (fun _ => Ok (JList [JStr "a claim"])) "" "" "key"
           (6, "anything") demo_world
           {| choices := [ {| text := demo_prompt "anything" |} ] |} 1%nat
           {| text := demo_prompt "anything" |} []
           (JList [JStr "a claim"]));
    try reflexivity.
  discriminate.
Defined.

Lemma pipeline_starts_witness :
  4 <= 8
  /\ exists chunks out w',
       check_text_detailed "claims down claims empty" 8 = Ok chunks
       /\ check_with_openai demo_create demo_loads chunks "" "" "key" demo_world
          = (Ok out, w')
       /\ StronglySorted Z.lt (map (fun r : record => fst (fst r)) out)
       /\ Forall (fun r : record => snd (fst r) <> EmptyString) out.
Proof.
  split; [lia|].
  apply (pipeline_starts demo_create demo_loads "" "" "key"
           "claims down claims empty" 8 demo_world); lia.
Defined.

Lemma null_claims_returns_none_witness :
  check_doc_with_openai demo_create (fun _ => Ok (JDict [("claims", JNull)]))
    "anything" "" "" "key" demo_world
  = (Ok JNull, MkWorld 1%nat []).
Proof.
  apply (null_claims_returns_none demo_create
           (fun _ => Ok (JDict [("claims", JNull)])) "" "" "key"
           "anything" demo_world
           {| choices := [ {| text := demo_prompt "anything" |} ] |} 1%nat
           {| text := demo_prompt "anything" |} []
           [("claims", JNull)]);
    reflexivity.
Defined.

Lemma doc_reply_shapes_witness :
  (forall v,
      (fun _ : string => Ok (JDict [("claims", JStr "one claim")]))
        (demo_prompt "anything") = Ok v ->
      (forall d, v <> JDict d) ->
      check_doc_with_openai demo_create
        (fun _ => Ok (JDict [("claims", JStr "one claim")]))
        "anything" "" "" "key" demo_world
      = (Ok JNull,
         MkWorld 1%nat
           ([] ++ [failed_with
                     (Exn AttributeError
                        (String.append "'"
                           (String.append (type_name v)
                              "' object has no attribute 'get'")))])))
  /\ (forall d v,
        (fun _ : string => Ok (JDict [("claims", JStr "one claim")]))
          (demo_prompt "anything") = Ok (JDict d) ->
        lookup_key "claims" d = Some v ->
        check_doc_with_openai demo_create
          (fun _ => Ok (JDict [("claims", JStr "one claim")]))
          "anything" "" "" "key" demo_world
        = (Ok v, MkWorld 1%nat [])).
Proof.
  apply (doc_reply_shapes demo_create
           (fun _ => Ok (JDict [("claims", JStr "one claim")])) "" "" "key"
           "anything" demo_world
           {| choices := [ {| text := demo_prompt "anything" |} ] |} 1%nat
           {| text := demo_prompt "anything" |} []);
    reflexivity.
Defined.

(** The journal of the example service after three chunks. *)
Example recording_demo :
  check_with_openai (recording demo_create) demo_loads
    [(0, "claims"); (2, "down"); (4, "empty")] "m" "" "key"
    (MkWorld (O, []) [])
  = (Ok [(0, "claims", JList [JStr "a claim"])],
     MkWorld
       (3%nat,
        [chunk_request "m" "" "claims"; chunk_request "m" "" "down";
         chunk_request "m" "" "empty"])
       ["Failed on chunk starting at 2 with error: service unavailable"]).
Proof. reflexivity. Qed.
